(** * StarVine: the independence copula and the C-vine tree level

    A shallow embedding of
      - [starvine/bvcopula/copula/indep_copula.py] (class [IndepCopula]) and
      - [starvine/vine/C_vine.py] (classes [Cvine] and [Ctree]),
    followed by the properties of the specification that concern them.

    Conventions of the embedding.
      - A numpy [float64] value is an exact rational ([Q]); rounding, overflow,
        underflow and NaN are outside the model.  Results are compared with
        [=] where the code only moves values around and with [Qeq], [Qlt] and
        [Qle] where it computes.
      - A one-dimensional array or a pandas [Series] is a [list Q].
      - A Python exception is a value of [Py.exn]; code that may raise returns
        in [Py.result].  An object that the code mutates is threaded through
        explicitly; when a loop raises, the partly updated object is lost with
        the exception.
      - Column labels (node identifiers) are integers, the default labels of
        the code ([range(data.shape[1])]). *)

From Stdlib Require Import ZArith QArith Qabs Qreals Reals Psatz.
From stdpp Require Import base option list strings gmap.

(** ** Python: exceptions, [None] and the result monad *)

Module Py.

Inductive exn : Type :=
| AttributeError
| KeyError
| IndexError
| ValueError
| TypeError
| AssertionError.

Inductive result (A : Type) : Type :=
| Ok (a : A)
| Raise (e : exn).
Global Arguments Ok {A} a.
Global Arguments Raise {A} e.

#[global] Instance result_ret : MRet result := fun A a => Ok a.

#[global] Instance result_bind : MBind result := fun A B f m =>
  match m with
  | Ok a => f a
  | Raise e => Raise e
  end.

(** [d[k]] and [o.attr] on something that may be missing: the exception [e]
    when it is. *)
Definition orRaise {A} (e : exn) (o : option A) : result A :=
  match o with
  | Some a => Ok a
  | None => Raise e
  end.

(** The statement [assert c]. *)
Definition py_assert (c : bool) : result unit :=
  if c then Ok tt else Raise AssertionError.

(** A [for] loop whose body updates a state and may raise. *)
Fixpoint forM {S A} (body : S -> A -> result S) (s : S) (xs : list A)
  : result S :=
  match xs with
  | [] => Ok s
  | x :: xs' => s' ← body s x; forM body s' xs'
  end.

(** [enumerate(xs)], counting from [i]. *)
Fixpoint enumerate_from {A} (i : nat) (xs : list A) : list (nat * A) :=
  match xs with
  | [] => []
  | x :: xs' => (i, x) :: enumerate_from (S i) xs'
  end.

Definition enumerate {A} (xs : list A) : list (nat * A) := enumerate_from 0 xs.

(** What a call evaluates to: a number, or [None] when the body ends without
    a [return]. *)
Inductive retval : Type :=
| PyNone
| PyFloat (x : Q).

End Py.
Import Py.

(** ** numpy on one-dimensional arrays *)

Module Np.

Abbreviation ndarray := (list Q) (only parsing).

(** [np.zeros(n)] and [np.ones(n)]. *)
Definition zeros (n : nat) : ndarray := replicate n 0%Q.

Definition ones (n : nat) : ndarray := replicate n 1%Q.

(** [np.abs(a)]. *)
Definition abs (a : ndarray) : ndarray := Qabs <$> a.

(** [u * v]: elementwise on equal lengths, an operand of length one is
    broadcast, any other pair of lengths raises [ValueError]. *)
Definition mul (u v : ndarray) : result ndarray :=
  if decide (length u = length v) then Ok (zip_with Qmult u v)
  else match u, v with
       | [x], _ => Ok (Qmult x <$> v)
       | _, [y] => Ok ((fun x => Qmult x y) <$> u)
       | _, _ => Raise ValueError
       end.

(** [np.argmax(a)]: the index of the first occurrence of the maximum,
    [ValueError] on an empty array.  [argmax_from bi b i a] scans [a], whose
    first element has index [i], with [b] at index [bi] the best so far: a
    later element replaces it only when it is strictly larger. *)
Fixpoint argmax_from (bi : nat) (b : Q) (i : nat) (a : ndarray) : nat :=
  match a with
  | [] => bi
  | x :: a' =>
      if Qlt_le_dec b x then argmax_from i x (S i) a'
      else argmax_from bi b (S i) a'
  end.

Definition argmax (a : ndarray) : result nat :=
  match a with
  | [] => Raise ValueError
  | x :: a' => Ok (argmax_from 0 x 1 a')
  end.

End Np.

(** ** [indep_copula.py]: class [IndepCopula] *)

Module IndepCopula.

(** An end point of a parameter interval: [-np.inf], [np.inf] or a number. *)
Inductive bound : Type :=
| NegInf
| PosInf
| Finite (x : Q).

(** The attributes that [__init__] sets. *)
Record t : Type := mk {
  rotation : Z;
  name : string;
  theta0 : list Q;
  fittedParams : list Q;
  thetaBounds : list (bound * bound)
}.

Definition __init__ (rotation : Z) : t :=
  {| rotation := rotation;
     name := "indep";
     theta0 := [1%Q];
     fittedParams := [1%Q];
     thetaBounds := [(NegInf, PosInf)] |}.

(** [_pdf(self, u, v, rotation=0, *args)]: [np.ones(len(u))]. *)
Definition _pdf (u v : Np.ndarray) (rotation : Z) (args : list Q)
  : Np.ndarray :=
  Np.ones (length u).

(** [_cdf(self, u, v, rotation=0, *args)]: [u * v]. *)
Definition _cdf (u v : Np.ndarray) (rotation : Z) (args : list Q)
  : result Np.ndarray :=
  Np.mul u v.

(** [_h(self, u, v, rotation=0, *args)]: [v], whatever kind of object the
    caller passed. *)
Definition _h {A : Type} (u v : A) (rotation : Z) (args : list Q) : A := v.

(** [_hinv(self, u, v, rotation=0, *args)]: [v]. *)
Definition _hinv {A : Type} (u v : A) (rotation : Z) (args : list Q) : A := v.

End IndepCopula.

(** Modelled from the spec: the log-likelihood of a fit, which the class
    [CopulaBase] (not among the sources) computes; section 4.3 gives it as
    the sum of [log density(u_i, v_i)] over the observations.  The logarithm
    is the real one, so the sum is a real number. *)
Definition logLikelihood (density : Np.ndarray) : R :=
  foldr Rplus 0%R ((fun d => ln (Q2R d)) <$> density).

(** ** pandas: a [DataFrame] as its ordered columns *)

Module Pd.

Abbreviation Series := (list Q) (only parsing).

Abbreviation label := Z (only parsing).

Abbreviation DataFrame := (list (Z * list Q)) (only parsing).

(** [df.columns], also what iterating over [df] yields. *)
Definition columns (df : DataFrame) : list label := fst <$> df.

(** A dictionary lookup in an association list: the first entry of the key. *)
Fixpoint assoc {A} (k : label) (l : list (label * A)) : option A :=
  match l with
  | [] => None
  | (k', a) :: l' => if decide (k' = k) then Some a else assoc k l'
  end.

(** [df[c]]: the column labelled [c], [KeyError] when there is none. *)
Definition getitem (df : DataFrame) (c : label) : result Series :=
  orRaise KeyError (assoc c df).

(** [df.shape]: (number of rows, number of columns). *)
Definition shape (df : DataFrame) : list nat :=
  [match df with [] => 0%nat | (_, s) :: _ => length s end; length df].

(** [DataFrame(a)] for a two-dimensional array [a], given by its columns: the
    columns are labelled 0, 1, ... *)
Definition of_array (cols : list Series) : DataFrame :=
  (fun p => (Z.of_nat p.1, p.2)) <$> enumerate cols.

(** [df.columns = labels]: [ValueError] unless there is one label per
    column. *)
Definition set_columns (df : DataFrame) (labels : list label)
  : result DataFrame :=
  if decide (length labels = length df) then Ok (zip labels (snd <$> df))
  else Raise ValueError.

End Pd.

(** ** networkx 1.x: the undirected graph [nx.Graph]

    The node dictionary and the edge store are association lists in insertion
    order.  An edge is stored once, under its unordered pair of end points:
    networkx keeps one attribute dictionary per edge and reaches it from both
    [adj[u][v]] and [adj[v][u]]. *)

Module Nx.

(** An attribute dictionary: the empty one, and [old.update(new)]. *)
Class AttrDict (D : Type) : Type := {
  empty_dict : D;
  update : D -> D -> D
}.

Record Graph (N E : Type) : Type := mkGraph {
  node : list (Z * N);
  edge : list (Z * Z * E)
}.
Global Arguments mkGraph {N E} node edge.
Global Arguments node {N E} g.
Global Arguments edge {N E} g.

Section Graph.
Context {N E : Type} `{AttrDict N, AttrDict E}.

(** [nx.Graph()]. *)
Definition new : Graph N E := mkGraph [] [].

(** [l[k] = a] on an association list: in place when the key is there, a new
    last entry when it is not. *)
Fixpoint assoc_set {A} (k : Z) (a : A) (l : list (Z * A)) : list (Z * A) :=
  match l with
  | [] => [(k, a)]
  | (k', a') :: l' =>
      if decide (k' = k) then (k, a) :: l' else (k', a') :: assoc_set k a l'
  end.

(** [(a, b)] is the edge between [u] and [v]. *)
Definition same_edge (u v a b : Z) : bool :=
  bool_decide ((a = u /\ b = v) \/ (a = v /\ b = u)).

Fixpoint get_edge (u v : Z) (es : list (Z * Z * E)) : option E :=
  match es with
  | [] => None
  | (a, b, d) :: es' => if same_edge u v a b then Some d else get_edge u v es'
  end.

Fixpoint set_edge (u v : Z) (d : E) (es : list (Z * Z * E))
  : list (Z * Z * E) :=
  match es with
  | [] => [(u, v, d)]
  | (a, b, d') :: es' =>
      if same_edge u v a b then (a, b, d) :: es'
      else (a, b, d') :: set_edge u v d es'
  end.

(** [G.add_node(n, attr_dict=attr)]: a new node gets [attr], a node that is
    there has its dictionary updated. *)
Definition add_node (n : Z) (attr : N) (g : Graph N E) : Graph N E :=
  mkGraph
    (assoc_set n (update (default empty_dict (Pd.assoc n (node g))) attr)
       (node g))
    (edge g).

(** [u not in G.node] adds [u] with an empty dictionary. *)
Definition ensure_node (u : Z) (g : Graph N E) : Graph N E :=
  match Pd.assoc u (node g) with
  | Some _ => g
  | None => mkGraph (node g ++ [(u, empty_dict)]) (edge g)
  end.

(** [G.add_edge(u, v, attr_dict=attr)]: missing end points become nodes, and
    the edge's dictionary (a new empty one when the edge is new) is updated
    with [attr]. *)
Definition add_edge (u v : Z) (attr : E) (g : Graph N E) : Graph N E :=
  let g := ensure_node v (ensure_node u g) in
  mkGraph (node g)
    (set_edge u v (update (default empty_dict (get_edge u v (edge g))) attr)
       (edge g)).

(** [G.node[n]]. *)
Definition node_get (g : Graph N E) (n : Z) : result N :=
  orRaise KeyError (Pd.assoc n (node g)).

(** [G.edge[u][v][key] = value], as the function [f] on the edge's
    dictionary: [KeyError] when there is no such edge. *)
Definition edge_alter (f : E -> E) (u v : Z) (g : Graph N E)
  : result (Graph N E) :=
  d ← orRaise KeyError (get_edge u v (edge g));
  Ok (mkGraph (node g) (set_edge u v (f d) (edge g))).

(** [G.edges(data=True)]: the nodes are visited in the order of the node
    dictionary; a node reports the edges to its neighbours that were not
    visited before it, itself first in the triple. *)
Definition report (n : Z) (seen : list Z) (e : Z * Z * E)
  : option (Z * Z * E) :=
  let '(a, b, d) := e in
  if decide (a = n) then (if decide (b ∈ seen) then None else Some (n, b, d))
  else if decide (b = n) then
         (if decide (a ∈ seen) then None else Some (n, a, d))
  else None.

Fixpoint edges_iter (ns seen : list Z) (es : list (Z * Z * E))
  : list (Z * Z * E) :=
  match ns with
  | [] => []
  | n :: ns' => omap (report n seen) es ++ edges_iter ns' (n :: seen) es
  end.

Definition edges (g : Graph N E) : list (Z * Z * E) :=
  edges_iter (fst <$> node g) [] (edge g).

(** [G.number_of_nodes()], [G.number_of_edges()] and [G.degree(n)] (a
    self-loop counts twice). *)
Definition number_of_nodes (g : Graph N E) : nat := length (node g).

Definition number_of_edges (g : Graph N E) : nat := length (edge g).

Definition incidence (n : Z) (e : Z * Z * E) : nat :=
  (if decide (e.1.1 = n) then 1 else 0) + (if decide (e.1.2 = n) then 1 else 0).

Definition degree (n : Z) (g : Graph N E) : nat :=
  sum_list (incidence n <$> edge g).

End Graph.

End Nx.

(** ** [starvine.bvcopula.pc_base], as far as [C_vine.py] uses it

    The module is not among the sources.  [C_vine.py] constructs
    [pc.PairCopula(u, v)] from two arrays and uses three things of it, which
    the embedding takes as an interface. *)

Module Pc.

(** A node's attribute dictionary, [{"data": series}]; a node that
    [add_edge] created has none. *)
Record NodeAttr : Type := mkNode {
  nd_data : option Pd.Series
}.

(** The objects that reach a copula's [h]: arrays, and (from [evalH]) node
    attribute dictionaries. *)
Inductive hval : Type :=
| HSeries (s : Pd.Series)
| HNode (a : NodeAttr).

(** A fitted copula model, as far as [evalH] uses it: its name and its
    method [h(u, v, rotation, params)]. *)
Record Copula : Type := mkCopula {
  cname : string;
  h : hval -> hval -> Z -> list Q -> result hval
}.

(** [pc.PairCopula(u, v)] holds the two arrays. *)
Record PairCopula : Type := mkPairCopula {
  UU : Np.ndarray;
  VV : Np.ndarray
}.

(** [empKTau] is the empirical Kendall's tau of the pair, the first component
    of the (tau, p-value) pair that the source unpacks; the p-value is
    dropped at both places ([empKTau()[0]] in [_setTreeStructure], the unused
    [trialP] in [_selectSpanningTree], which reads [trialPair.empKTau]
    without calling it: the embedding takes both places to obtain the pair).
    [copulaTournament] returns the winning model and its fitted
    parameters. *)
Class PcBase : Type := {
  empKTau : PairCopula -> Q;
  copulaTournament : PairCopula -> result (Copula * list Q)
}.

End Pc.
Import Pc.

(** The independence copula as a fitted model: at rotation 0 the public [h]
    of [CopulaBase] (not among the sources) is taken to be the family's
    [_h]. *)
Definition indepModel : Copula :=
  {| cname := IndepCopula.name (IndepCopula.__init__ 0);
     h := fun u v rotation params => Ok (IndepCopula._h u v rotation params) |}.

(** ** [C_vine.py]: class [Ctree] *)

Module Ctree.

(** An edge's attribute dictionary.  [setEdges] stores ["weight"] and ["pc"],
    [fitCopula] adds ["pc-model"] (the model and its parameters), [evalH]
    adds ["h-dist"]. *)
Record EdgeAttr : Type := mkEdge {
  weight : option Q;
  pc : option PairCopula;
  pc_model : option (Copula * list Q);
  h_dist : option hval
}.

(** A key of [new] overrides the same key of [old]. *)
Definition override {A} (old new : option A) : option A :=
  match new with
  | Some a => Some a
  | None => old
  end.

#[global] Instance node_attr_dict : Nx.AttrDict NodeAttr := {|
  Nx.empty_dict := mkNode None;
  Nx.update old new := mkNode (override (nd_data old) (nd_data new))
|}.

#[global] Instance edge_attr_dict : Nx.AttrDict EdgeAttr := {|
  Nx.empty_dict := mkEdge None None None None;
  Nx.update old new :=
    mkEdge (override (weight old) (weight new)) (override (pc old) (pc new))
      (override (pc_model old) (pc_model new))
      (override (h_dist old) (h_dist new))
|}.

Definition set_pc_model (m : Copula * list Q) (d : EdgeAttr) : EdgeAttr :=
  mkEdge (weight d) (pc d) (Some m) (h_dist d).

Definition set_h_dist (r : hval) (d : EdgeAttr) : EdgeAttr :=
  mkEdge (weight d) (pc d) (pc_model d) (Some r).

Abbreviation Tree := (Nx.Graph NodeAttr EdgeAttr) (only parsing).

(** An instance: the attributes that the class assigns, each absent until it
    is assigned.  The class itself has methods only, so an attribute that
    the instance lacks is an [AttributeError]. *)
Record t : Type := mk {
  data : option Pd.DataFrame;
  nT : option nat;
  level : option (option Z);
  tree : option Tree
}.

(** The object that [__init__] receives as [self]. *)
Definition new : t := mk None None None None.

Definition get_data (self : t) : result Pd.DataFrame :=
  orRaise AttributeError (data self).

Definition get_tree (self : t) : result Tree :=
  orRaise AttributeError (tree self).

Definition set_data (d : Pd.DataFrame) (self : t) : t :=
  mk (Some d) (nT self) (level self) (tree self).

Definition set_nT (n : nat) (self : t) : t :=
  mk (data self) (Some n) (level self) (tree self).

Definition set_level (l : option Z) (self : t) : t :=
  mk (data self) (nT self) (Some l) (tree self).

Definition set_tree (g : Tree) (self : t) : t :=
  mk (data self) (nT self) (level self) (Some g).

(** The [data] argument: a [DataFrame], or a two-dimensional array (given by
    its columns). *)
Inductive data_arg : Type :=
| DataFrameArg (df : Pd.DataFrame)
| ArrayArg (cols : list Pd.Series).

(** [data.shape[1]]. *)
Definition arg_ncols (d : data_arg) : nat :=
  match d with
  | DataFrameArg df => length df
  | ArrayArg cols => length cols
  end.

(** [self.tree.node[n]["data"].values]. *)
Definition node_values (g : Tree) (n : Z) : result Np.ndarray :=
  a ← Nx.node_get g n;
  orRaise KeyError (nd_data a).

(** [_buildNodes]: one node per data column. *)
Definition _buildNodes (self : t) : result t :=
  d ← get_data self;
  forM (fun self colName =>
          d ← get_data self;
          col ← Pd.getitem d colName;
          g ← get_tree self;
          Ok (set_tree (Nx.add_node colName (mkNode (Some col)) g) self))
    self (Pd.columns d).

(** Lines 112 to 123 of [__init__]: everything after the assertion. *)
Definition init_body (self : t) (data : data_arg) (lvl : option Z)
    (kwargs : gmap string (list Z)) : result t :=
  self ← match data with
         | DataFrameArg df => Ok (set_data df self)
         | ArrayArg cols =>
             let self := set_data (Pd.of_array cols) self in
             let dataLabels :=
               default (Z.of_nat <$> seq 0 (arg_ncols data))
                 (kwargs !! "labels") in
             d ← get_data self;
             d' ← Pd.set_columns d dataLabels;
             Ok (set_data d' self)
         end;
  let self := set_nT (arg_ncols data) self in
  let self := set_level lvl self in
  let self := set_tree Nx.new self in
  _buildNodes self.

(** [__init__(self, data, lvl=None, **kwargs)].  Its first statement is
    [assert(len(self.data.shape) == 2)], which reads [self.data]. *)
Definition __init__ (self : t) (data : data_arg) (lvl : option Z)
    (kwargs : gmap string (list Z)) : result t :=
  d ← get_data self;
  _ ← py_assert (bool_decide (length (Pd.shape d) = 2%nat));
  init_body self data lvl kwargs.

(** The call [Ctree(data, lvl, **kwargs)]: a new object, then [__init__]. *)
Definition call (data : data_arg) (lvl : option Z)
    (kwargs : gmap string (list Z)) : result t :=
  __init__ new data lvl kwargs.

Section Methods.
Context `{PcBase}.

(** [_setTreeStructure(nodePairs)]: the weight of each given pair; no pair is
    checked against anything. *)
Definition _setTreeStructure (self : t) (nodePairs : list (Z * Z))
  : result (list (Z * Z * Q)) :=
  forM (fun treeStructure pair =>
          g ← get_tree self;
          u ← node_values g pair.1;
          v ← node_values g pair.2;
          let trialPair := mkPairCopula u v in
          Ok (treeStructure ++ [(pair.1, pair.2, empKTau trialPair)]))
    [] nodePairs.

(** The inner loop of [_selectSpanningTree] for the candidate root
    [rootNodeID] at position [i].  The state is
    [(trialKtauSum, trialPairings)].  [nodeID is not rootNodeID] is read as
    inequality of the labels. *)
Definition pairWithRoot (self : t) (i : nat) (rootNodeID : Z)
    (st : Np.ndarray * list (list (Z * Z * Q))) (nodeID : Z)
  : result (Np.ndarray * list (list (Z * Z * Q))) :=
  if decide (nodeID ≠ rootNodeID) then
    g ← get_tree self;
    u ← node_values g rootNodeID;
    v ← node_values g nodeID;
    let trialPair := mkPairCopula u v in
    let trialKtau := empKTau trialPair in
    Ok (alter (fun s => s + trialKtau)%Q i st.1,
        alter (fun ps => ps ++ [(rootNodeID, nodeID, trialKtau)]) i st.2)
  else Ok st.

(** The two loops of [_selectSpanningTree]: the final
    [(trialKtauSum, trialPairings)]. *)
Definition trialPairings (self : t)
  : result (Np.ndarray * list (list (Z * Z * Q))) :=
  d ← get_data self;
  let nodeIDs := Pd.columns d in
  forM (fun st ir =>
          let st := (st.1, st.2 ++ [[]]) in
          forM (pairWithRoot self ir.1 ir.2) st nodeIDs)
    (Np.zeros (length nodeIDs), []) (enumerate nodeIDs).

(** [bestPairingIndex = np.argmax(np.abs(trialKtauSum))]. *)
Definition bestPairingIndex (self : t) : result nat :=
  st ← trialPairings self;
  Np.argmax (Np.abs st.1).

(** [_selectSpanningTree()]: [trialPairings[bestPairingIndex]]. *)
Definition _selectSpanningTree (self : t) : result (list (Z * Z * Q)) :=
  st ← trialPairings self;
  bestPairingIndex ← Np.argmax (Np.abs st.1);
  orRaise IndexError (st.2 !! bestPairingIndex).

(** [setEdges(treeStructure=None)].  [None] and the empty list are both
    false in [if treeStructure:]. *)
Definition setEdges (self : t) (treeStructure : option (list (Z * Z)))
  : result t :=
  nodePairs ← match treeStructure with
              | Some (p :: ps) => _setTreeStructure self (p :: ps)
              | Some [] | None => _selectSpanningTree self
              end;
  forM (fun self pair =>
          d ← get_data self;
          u ← Pd.getitem d pair.1.1;
          v ← Pd.getitem d pair.1.2;
          g ← get_tree self;
          Ok (set_tree
                (Nx.add_edge pair.1.1 pair.1.2
                   (mkEdge (Some pair.2) (Some (mkPairCopula u v)) None None)
                   g)
                self))
    self nodePairs.

(** [fitCopula()]: the tournament's winner on every edge. *)
Definition fitCopula (self : t) : result t :=
  g ← get_tree self;
  forM (fun self e =>
          p ← orRaise KeyError (pc e.2);
          m ← copulaTournament p;
          g ← get_tree self;
          g' ← Nx.edge_alter (set_pc_model m) e.1.1 e.1.2 g;
          Ok (set_tree g' self))
    self (Nx.edges g).

(** [evalH()]: on every edge [(u, v)], the model's [h] applied to
    [self.tree.node[u]], [self.tree.node[v]], the rotation [0] and the fitted
    parameters; the result is stored on the edge as ["h-dist"]. *)
Definition evalH (self : t) : result t :=
  g ← get_tree self;
  forM (fun self e =>
          m ← orRaise KeyError (pc_model e.2);
          g ← get_tree self;
          nu ← Nx.node_get g e.1.1;
          nv ← Nx.node_get g e.1.2;
          r ← h m.1 (HNode nu) (HNode nv) 0 m.2;
          g' ← Nx.edge_alter (set_h_dist r) e.1.1 e.1.2 g;
          Ok (set_tree g' self))
    self (Nx.edges g).

End Methods.

(** [treeLLH()]: the body is [pass]. *)
Definition treeLLH (self : t) : retval := PyNone.

End Ctree.

(** ** [C_vine.py]: class [Cvine] *)

Module Cvine.

Record t : Type := mk {
  data : Pd.DataFrame;
  nLevels : Z;
  vine : Ctree.Tree
}.

(** [__init__(self, data)]. *)
Definition __init__ (data : Pd.DataFrame) : t :=
  {| data := data;
     nLevels := Z.of_nat (nth 1 (Pd.shape data) 0%nat) - 1;
     vine := Nx.new |}.

(** [constructVine()]: the body is [pass]; the object is as it was and the
    call evaluates to [None]. *)
Definition constructVine (self : t) : t * retval := (self, PyNone).

(** [vineLLH(plist, **kwargs)]: the body is [pass]. *)
Definition vineLLH (self : t) (plist : list Q) : retval := PyNone.

(** [treeHfun(level=0)]: the body is [pass]. *)
Definition treeHfun (self : t) (level : Z) : retval := PyNone.

End Cvine.

(** ** The dependence estimator, for concrete data

    Modelled from the spec: [PairCopula.empKTau] is not among the sources;
    section 4.2 has it compute the empirical Kendall's tau of two series.
    On series without ties that is the number of concordant pairs minus the
    number of discordant pairs, over the number of pairs. *)

Module Kendall.

Definition sgn (x : Q) : Z :=
  match (x ?= 0)%Q with
  | Lt => -1
  | Eq => 0
  | Gt => 1
  end.

(** Concordant minus discordant pairs among the pairs (i, j), i < j. *)
Fixpoint concordance (u v : list Q) : Z :=
  match u, v with
  | x :: u', y :: v' =>
      (foldr Z.add 0 (zip_with (fun x' y' => sgn (x - x') * sgn (y - y')) u' v')
       + concordance u' v')%Z
  | _, _ => 0%Z
  end.

Definition tau (u v : list Q) : Q :=
  let n := Z.of_nat (length u) in
  Qred (inject_Z (concordance u v) / inject_Z (n * (n - 1) / 2)).

(** The interface of [pc_base] with this estimator; every tournament is won
    by the independence copula with its fixed parameter. *)
Definition pcBase : PcBase :=
  {| empKTau := fun p => tau (UU p) (VV p);
     copulaTournament := fun _ =>
       Ok (indepModel, IndepCopula.fittedParams (IndepCopula.__init__ 0)) |}.

End Kendall.

(** ** Closed forms of the loops of [_selectSpanningTree]

    For an instance whose nodes were built from the data frame [df], the two
    loops compute, for the candidate root [r], the list [rowPairs df r] and
    the number [tauSum df r] (theorem [trialPairings_closed_form] below). *)

Module Closed.
Section Closed.
Context `{PcBase}.

(** The column labelled [c], as the lookups in the loop find it. *)
Definition column (df : Pd.DataFrame) (c : Z) : Np.ndarray :=
  default [] (Pd.assoc c df).

(** Kendall's tau between the columns [r] and [c]. *)
Definition pairTau (df : Pd.DataFrame) (r c : Z) : Q :=
  empKTau (mkPairCopula (column df r) (column df c)).

(** The nodes that the root [r] is paired with. *)
Definition others (df : Pd.DataFrame) (r : Z) : list Z :=
  filter (fun c => c ≠ r) (Pd.columns df).

Definition rowPairs (df : Pd.DataFrame) (r : Z) : list (Z * Z * Q) :=
  (fun c => (r, c, pairTau df r c)) <$> others df r.

(** The sum of the signed taus, added up from zero in column order. *)
Definition tauSum (df : Pd.DataFrame) (r : Z) : Q :=
  fold_left (fun s c => (s + pairTau df r c)%Q) (others df r) 0%Q.

(** The score that [np.argmax] compares: the absolute value of the sum. *)
Definition score (df : Pd.DataFrame) (r : Z) : Q := Qabs (tauSum df r).

End Closed.
End Closed.

(** ** The specification's words, for comparison with the code *)

Module Spec.

(** Values strictly inside the unit interval. *)
Definition inUnit (u : Np.ndarray) : Prop :=
  Forall (fun x => (0 < x)%Q /\ (x < 1)%Q) u.

(** Values in the closed unit interval. *)
Definition inClosedUnit (u : Np.ndarray) : Prop :=
  Forall (fun x => (0 <= x)%Q /\ (x <= 1)%Q) u.

(** Section 8, the round-trip law, read for the independence family:
    [conditional(conditionalInverse(u, v), v)] is [u] up to the tolerance
    [tol], at every position. *)
Definition roundtrip_law (tol : Q) : Prop :=
  forall (u v : Np.ndarray) (rotation : Z) (params : list Q) (i : nat)
         (ui r : Q),
    inUnit u -> inUnit v -> length u = length v ->
    u !! i = Some ui ->
    IndepCopula._h (IndepCopula._hinv u v rotation params) v rotation params
      !! i = Some r ->
    (Qabs (r - ui) <= tol)%Q.

(** Section 4.5, [selectRootAndEdges]: the score of a candidate root is the
    sum of the absolute values of Kendall's tau between it and every other
    node. *)
Definition absTauScore `{PcBase} (df : Pd.DataFrame) (r : Z) : Q :=
  fold_left (fun s c => (s + Qabs (Closed.pairTau df r c))%Q)
    (Closed.others df r) 0%Q.

(** Section 3, the tree invariant: every edge includes [root], and no other
    node has a degree above 1. *)
Definition starAt (root : Z) (g : Ctree.Tree) : Prop :=
  (forall e, e ∈ Nx.edge g -> e.1.1 = root \/ e.1.2 = root) /\
  (forall n, n ≠ root -> (Nx.degree n g <= 1)%nat).

(** ... with exactly n - 1 edges for n nodes. *)
Definition isCTree (g : Ctree.Tree) : Prop :=
  S (Nx.number_of_edges g) = Nx.number_of_nodes g /\ exists root, starAt root g.

End Spec.

(** ** Concrete data

    Pseudo-observations (ranks over n + 1) of four variables in four
    observations. *)

Module Example.

Definition x0 : Pd.Series := [1#5; 2#5; 3#5; 4#5]%Q.

Definition x1 : Pd.Series := [2#5; 1#5; 3#5; 4#5]%Q.

Definition x2 : Pd.Series := [4#5; 3#5; 1#5; 2#5]%Q.

Definition x3 : Pd.Series := [3#5; 4#5; 2#5; 1#5]%Q.

Definition df3 : Pd.DataFrame := [(0, x0); (1, x1); (2, x2)]%Z.

Definition df4 : Pd.DataFrame := [(0, x0); (1, x1); (2, x2); (3, x3)]%Z.

(** The instance that lines 112 to 123 of [Ctree.__init__] build. *)
Definition built (df : Pd.DataFrame) : result Ctree.t :=
  Ctree.init_body Ctree.new (Ctree.DataFrameArg df) None ∅.

End Example.

(** The instances built from the example data, written out. *)

Module Built.

Definition df2 : Pd.DataFrame := [(0, Example.x0); (1, Example.x1)]%Z.

Definition nodes (df : Pd.DataFrame) : list (Z * NodeAttr) :=
  (fun p => (p.1, mkNode (Some p.2))) <$> df.

Definition instance (df : Pd.DataFrame) : Ctree.t :=
  Ctree.mk (Some df) (Some (length df)) (Some None)
    (Some (Nx.mkGraph (nodes df) [])).

Definition self2 : Ctree.t := instance df2.

Definition self3 : Ctree.t := instance Example.df3.

Definition self4 : Ctree.t := instance Example.df4.

(** The dictionary that [setEdges] gives the edge from [a] to [b]. *)
Definition edgeAttr (df : Pd.DataFrame) (a b : Z) : Ctree.EdgeAttr :=
  Ctree.mkEdge
    (Some (@Closed.pairTau Kendall.pcBase df a b))
    (Some (mkPairCopula (Closed.column df a) (Closed.column df b)))
    None None.

End Built.

(** ** Closed forms of the loops of [_buildNodes] and [setEdges] *)

Module Loops.

(** The tree after [_buildNodes] has visited the columns [cs]. *)
Definition nodesBuilt (df : Pd.DataFrame) (cs : list Z) (g : Ctree.Tree)
  : Ctree.Tree :=
  foldl (fun g c => Nx.add_node c (mkNode (Some (Closed.column df c))) g) g cs.

(** The tree after the loop of [setEdges] has stored the pairs [ps]. *)
Definition edgesAdded (df : Pd.DataFrame) (ps : list (Z * Z * Q))
    (g : Ctree.Tree) : Ctree.Tree :=
  foldl (fun g p =>
           Nx.add_edge p.1.1 p.1.2
             (Ctree.mkEdge (Some p.2)
                (Some (mkPairCopula (Closed.column df p.1.1)
                         (Closed.column df p.1.2)))
                None None)
             g)
    g ps.

(** An instance is built from [df] when it holds [df] as its data and a tree
    without edges whose nodes carry the columns of [df]: what lines 112 to
    123 of [__init__] establish. *)
Definition builtFrom (df : Pd.DataFrame) (self : Ctree.t) : Prop :=
  Ctree.data self = Some df /\
  exists g, Ctree.tree self = Some g /\ Nx.edge g = [] /\
            forall c, c ∈ Pd.columns df ->
                      Ctree.node_values g c = Ok (Closed.column df c).

(** The edge from the root [r] to [c], as automatic selection stores it. *)
Definition starEdge `{PcBase} (df : Pd.DataFrame) (r c : Z)
  : Z * Z * Ctree.EdgeAttr :=
  (r, c,
   Ctree.mkEdge (Some (Closed.pairTau df r c))
     (Some (mkPairCopula (Closed.column df r) (Closed.column df c)))
     None None).

End Loops.

(** ** [indep_copula.py]: the generator [_gen] *)

Module IndepCopulaGen.




End IndepCopulaGen.

(** ** A star-shaped edge store

    The edge store that automatic selection leaves, for any attribute
    dictionaries: one edge from the root [r] to each node of [cs]. *)

Module Star.

Definition store (attr : Z -> Ctree.EdgeAttr) (r : Z) (cs : list Z)
  : list (Z * Z * Ctree.EdgeAttr) :=
  (fun c => (r, c, attr c)) <$> cs.

(** The edges in the order and with the orientation in which
    [edges(data=True)] reports them when the columns before the root are
    [pre] and those after it are [post]. *)
Definition visits (attr : Z -> Ctree.EdgeAttr) (r : Z) (pre post : list Z)
  : list (Z * Z * Ctree.EdgeAttr) :=
  ((fun c => (c, r, attr c)) <$> pre) ++ ((fun c => (r, c, attr c)) <$> post).

(** The dictionaries after [setEdges], after [fitCopula] with the winners
    [m], and after [evalH] with the values [hd]. *)
Definition selected `{PcBase} (df : Pd.DataFrame) (r c : Z)
  : Ctree.EdgeAttr :=
  (Loops.starEdge df r c).2.



(** The dictionaries [attr] with the one of [c] replaced by [d]. *)
Definition update (attr : Z -> Ctree.EdgeAttr) (c : Z) (d : Ctree.EdgeAttr)
    (c' : Z) : Ctree.EdgeAttr :=
  if decide (c' = c) then d else attr c'.

(** The node dictionaries of the columns of [df]. *)
Definition nodeOf (df : Pd.DataFrame) (c : Z) : NodeAttr :=
  mkNode (Some (Closed.column df c)).

(** An instance with a star as its tree: the nodes [ns], the root [r], one
    edge to each node of [cs], with the dictionaries [attr]. *)
Definition withStar (self0 : Ctree.t) (ns : list (Z * NodeAttr)) (r : Z)
    (cs : list Z) (attr : Z -> Ctree.EdgeAttr) : Ctree.t :=
  Ctree.set_tree (Nx.mkGraph ns (store attr r cs)) self0.

(** The nodes that [_buildNodes] makes of the columns of [df]. *)
Definition nodes (df : Pd.DataFrame) : list (Z * NodeAttr) :=
  (fun c => (c, nodeOf df c)) <$> Pd.columns df.



End Star.

(** * Properties *)

Import Loops.

(** ** The independence copula *)

Lemma logLikelihood_ones (n : nat) : logLikelihood (Np.ones n) = 0%R.
Proof.
  unfold logLikelihood, Np.ones.
  induction n as [|n IH]; [reflexivity|].
  rewrite replicate_S, fmap_cons. cbn [foldr].
  rewrite IH, RMicromega.Q2R_1, ln_1. lra.
Qed.

(** C3. For the independence copula the density is the constant sequence 1 of
    the length of [u], so the log-likelihood (the sum of the logarithms of
    the densities) is 0 for any data, and the conditional [_h(u, v)] is [v];
    rotation and parameters play no role. *)
Theorem indep_density_one_conditional_v (u v : Np.ndarray) (rotation : Z)
    (params : list Q) :
  IndepCopula._pdf u v rotation params = replicate (length u) 1%Q /\
  (forall i, (i < length u)%nat ->
             IndepCopula._pdf u v rotation params !! i = Some 1%Q) /\
  logLikelihood (IndepCopula._pdf u v rotation params) = 0%R /\
  IndepCopula._h u v rotation params = v.
Proof.
  split; [reflexivity|]. split; [|split].
  - intros i Hi. unfold IndepCopula._pdf, Np.ones.
    now apply lookup_replicate_2.
  - apply logLikelihood_ones.
  - reflexivity.
Qed.





(** C2, as stated, fails: at [u = [1/4]], [v = [3/4]] the independence
    copula gives [_h(_hinv(u, v), v) = [3/4]], half a unit away from [u]. *)
Lemma indep_roundtrip_first_argument_fails : ~ Spec.roundtrip_law (49 # 100).
Proof.
  intros Hlaw.
  specialize (Hlaw [1#4]%Q [3#4]%Q 0%Z [1%Q] 0%nat (1#4)%Q (3#4)%Q).
  assert (Hu : Spec.inUnit [1#4]%Q) by (repeat constructor).
  assert (Hv : Spec.inUnit [3#4]%Q) by (repeat constructor).
  specialize (Hlaw Hu Hv eq_refl eq_refl eq_refl).
  revert Hlaw. vm_compute. intros Hle. now apply Hle.
Qed.

(** C2, amended. [_h] and [_hinv] of the independence copula both return
    their second argument: the round trip holds exactly in the second
    argument, [_h(u, _hinv(u, v)) = v], while [_h(_hinv(u, v), v)] is [v]
    (and so is [u] only where the two agree). *)
Theorem indep_roundtrip_second_argument (A : Type) (u v : A) (rotation : Z)
    (params : list Q) :
  IndepCopula._h u (IndepCopula._hinv u v rotation params) rotation params = v
  /\
  IndepCopula._h (IndepCopula._hinv u v rotation params) v rotation params = v.
Proof. split; reflexivity. Qed.

(** ** Construction of a [Ctree] *)

(** C9. Whatever the data, the level and the keyword arguments, the call
    [Ctree(data, lvl, **kwargs)] raises [AttributeError]: the assertion reads
    [self.data] on an object that has no attribute yet.  So the call returns
    no instance, and no method ([setEdges], [fitCopula], [evalH]) runs on
    the result of a construction. *)
Theorem ctree_construction_raises (data : Ctree.data_arg) (lvl : option Z)
    (kwargs : gmap string (list Z)) :
  Ctree.call data lvl kwargs = Raise AttributeError /\
  (forall self, Ctree.call data lvl kwargs ≠ Ok self) /\
  (forall (pcb : PcBase) (treeStructure : option (list (Z * Z))),
      (self ← Ctree.call data lvl kwargs;
       self ← Ctree.setEdges self treeStructure;
       self ← Ctree.fitCopula self;
       Ctree.evalH self) = Raise AttributeError).
Proof.
  assert (Hcall : Ctree.call data lvl kwargs = Raise AttributeError)
    by reflexivity.
  split; [exact Hcall|]. split.
  - intros self. rewrite Hcall. discriminate.
  - intros pcb treeStructure. now rewrite Hcall.
Qed.

(** The assertion is what fails: past it, the rest of [__init__] builds an
    instance from any data frame. *)
Lemma init_body_example :
  Example.built Example.df3
  = Ok (Ctree.mk (Some Example.df3) (Some 3%nat) (Some None)
          (Some (Nx.mkGraph
                   [(0%Z, mkNode (Some Example.x0));
                    (1%Z, mkNode (Some Example.x1));
                    (2%Z, mkNode (Some Example.x2))] []))).
Proof. reflexivity. Qed.

(** ** The vine *)

(** C6, on the code. [Cvine.__init__] records [nLevels = n - 1], and
    [constructVine] builds nothing: for the three columns of [df3] the vine
    is the empty graph after the call, which evaluates to [None], where the
    specification has two tree levels. *)
Theorem constructVine_builds_no_level :
  let self := Cvine.__init__ Example.df3 in
  Cvine.nLevels self = 2%Z /\
  Cvine.constructVine self = (self, PyNone) /\
  Nx.number_of_nodes (Cvine.vine (Cvine.constructVine self).1) = 0%nat /\
  Nx.number_of_edges (Cvine.vine (Cvine.constructVine self).1) = 0%nat.
Proof. repeat split. Qed.

Lemma constructVine_is_identity (self : Cvine.t) :
  Cvine.constructVine self = (self, PyNone).
Proof. reflexivity. Qed.

Lemma cvine_init_levels (data : Pd.DataFrame) :
  Cvine.nLevels (Cvine.__init__ data) = (Z.of_nat (length data) - 1)%Z /\
  Cvine.vine (Cvine.__init__ data) = Nx.new.
Proof. split; reflexivity. Qed.

(** C7, on the code. [vineLLH] and [treeLLH] end without a [return]: each
    call evaluates to [None], for every vine and every tree, and never to a
    number. *)
Theorem vineLLH_returns_None (self : Cvine.t) (plist : list Q) (t : Ctree.t) :
  Cvine.vineLLH self plist = PyNone /\
  Ctree.treeLLH t = PyNone /\
  (forall x, Cvine.vineLLH self plist ≠ PyFloat x) /\
  (forall x, Ctree.treeLLH t ≠ PyFloat x).
Proof. repeat split; discriminate. Qed.

(** ** Association lists and the nodes of a tree *)

Lemma assoc_assoc_set {A} (k k' : Z) (a : A) (l : list (Z * A)) :
  Pd.assoc k (Nx.assoc_set k' a l)
  = if decide (k' = k) then Some a else Pd.assoc k l.
Proof.
  induction l as [|[k0 a0] l IH]; simpl.
  - reflexivity.
  - destruct (decide (k0 = k')) as [->|Hne]; simpl.
    + repeat case_decide; congruence.
    + rewrite IH. repeat case_decide; congruence.
Qed.

Lemma assoc_Some_columns (df : Pd.DataFrame) (c : Z) :
  c ∈ Pd.columns df -> Pd.assoc c df = Some (@Closed.column df c).
Proof.
  unfold Closed.column, Pd.columns.
  induction df as [|[k s] df IH]; simpl; intros Hin.
  - now apply elem_of_nil in Hin.
  - destruct (decide (k = c)); [reflexivity|].
    apply elem_of_cons in Hin as [->|Hin]; [congruence|]. now apply IH.
Qed.

Lemma buildNodes_loop (df : Pd.DataFrame) (cs : list Z) (self : Ctree.t)
    (g : Ctree.Tree) :
  Ctree.data self = Some df -> Ctree.tree self = Some g ->
  (forall c, c ∈ cs -> c ∈ Pd.columns df) ->
  forM (fun self colName =>
          d ← Ctree.get_data self;
          col ← Pd.getitem d colName;
          g ← Ctree.get_tree self;
          Ok (Ctree.set_tree
                (Nx.add_node colName (mkNode (Some col)) g) self))
    self cs
  = Ok (Ctree.set_tree (nodesBuilt df cs g) self).
Proof.
  revert self g.
  induction cs as [|c cs IH]; intros self g Hd Hg Hin; simpl.
  - destruct self; simpl in *. now subst.
  - unfold Ctree.get_data, Ctree.get_tree, Pd.getitem. rewrite Hd, Hg. simpl.
    rewrite assoc_Some_columns by (apply Hin; left). simpl.
    unfold Ctree.get_data, Ctree.get_tree, Pd.getitem in IH.
    rewrite (IH _ (Nx.add_node c (mkNode (Some (Closed.column df c))) g));
      [reflexivity|assumption|reflexivity|].
    intros c' Hc'. apply Hin. now right.
Qed.

Lemma nodesBuilt_edge (df : Pd.DataFrame) (cs : list Z) (g : Ctree.Tree) :
  Nx.edge (nodesBuilt df cs g) = Nx.edge g.
Proof.
  revert g. induction cs as [|c cs IH]; intros g; [reflexivity|].
  change (nodesBuilt df (c :: cs) g)
    with (nodesBuilt df cs
            (Nx.add_node c (mkNode (Some (Closed.column df c))) g)).
  now rewrite IH.
Qed.

Lemma nodesBuilt_assoc (df : Pd.DataFrame) (cs : list Z) (g : Ctree.Tree)
    (c : Z) :
  Pd.assoc c (Nx.node (nodesBuilt df cs g))
  = if decide (c ∈ cs) then Some (mkNode (Some (Closed.column df c)))
    else Pd.assoc c (Nx.node g).
Proof.
  revert g. induction cs as [|c0 cs IH]; intros g.
  - rewrite decide_False; [reflexivity|apply not_elem_of_nil].
  - change (nodesBuilt df (c0 :: cs) g)
      with (nodesBuilt df cs
              (Nx.add_node c0 (mkNode (Some (Closed.column df c0))) g)).
    rewrite IH. unfold Nx.add_node at 1. cbn [Nx.node].
    rewrite assoc_assoc_set.
    destruct (decide (c ∈ cs)) as [Hin|Hnin].
    + rewrite decide_True; [reflexivity|now right].
    + destruct (decide (c0 = c)) as [->|Hne].
      * rewrite decide_True; [reflexivity|left].
      * rewrite decide_False; [reflexivity|].
        rewrite elem_of_cons. intros [->|?]; [congruence|contradiction].
Qed.

Lemma init_body_builtFrom (df : Pd.DataFrame) (lvl : option Z)
    (kwargs : gmap string (list Z)) :
  exists self,
    Ctree.init_body Ctree.new (Ctree.DataFrameArg df) lvl kwargs = Ok self /\
    builtFrom df self.
Proof.
  eexists. split.
  - unfold Ctree.init_body, Ctree._buildNodes. simpl.
    apply (buildNodes_loop df (Pd.columns df)); [reflexivity|reflexivity|auto].
  - split; [reflexivity|]. eexists. split; [reflexivity|]. split.
    + apply nodesBuilt_edge.
    + intros c Hc. unfold Ctree.node_values, Nx.node_get.
      rewrite nodesBuilt_assoc, decide_True by assumption. reflexivity.
Qed.

(** ** The loops of [_selectSpanningTree] *)

Section Selection.
Context `{PcBase}.

Lemma pairWithRoot_step (df : Pd.DataFrame) (self : Ctree.t) (g : Ctree.Tree)
    (i : nat) (r c : Z) (st : Np.ndarray * list (list (Z * Z * Q))) :
  Ctree.tree self = Some g ->
  Ctree.node_values g r = Ok (Closed.column df r) ->
  Ctree.node_values g c = Ok (Closed.column df c) ->
  Ctree.pairWithRoot self i r st c
  = Ok (if decide (c ≠ r)
        then (alter (fun s => (s + Closed.pairTau df r c)%Q) i st.1,
              alter (fun ps => ps ++ [(r, c, Closed.pairTau df r c)]) i st.2)
        else st).
Proof.
  intros Hg Hr Hc. unfold Ctree.pairWithRoot, Ctree.get_tree.
  destruct (decide (c ≠ r)); [|reflexivity].
  rewrite Hg. cbn [orRaise mbind result_bind].
  rewrite Hr. cbn [mbind result_bind].
  rewrite Hc. reflexivity.
Qed.

Lemma pairWithRoot_loop (df : Pd.DataFrame) (self : Ctree.t) (g : Ctree.Tree)
    (i : nat) (r : Z) (cs : list Z)
    (st : Np.ndarray * list (list (Z * Z * Q))) :
  Ctree.tree self = Some g ->
  Ctree.node_values g r = Ok (Closed.column df r) ->
  (forall c, c ∈ cs -> Ctree.node_values g c = Ok (Closed.column df c)) ->
  forM (Ctree.pairWithRoot self i r) st cs
  = Ok (alter (fun s => fold_left (fun s c => (s + Closed.pairTau df r c)%Q)
                          (filter (fun c => c ≠ r) cs) s) i st.1,
        alter (fun ps => ps ++ ((fun c => (r, c, Closed.pairTau df r c))
                                 <$> filter (fun c => c ≠ r) cs)) i st.2).
Proof.
  intros Hg Hr. revert st.
  induction cs as [|c cs IH]; intros [ksum pairings] Hcs.
  - simpl.
    rewrite (list_alter_id (fun s : Q => s)) by reflexivity.
    rewrite list_alter_id by (intros; rewrite ?app_nil_r; reflexivity).
    reflexivity.
  - cbn [forM].
    rewrite (pairWithRoot_step df self g) by (auto using list_elem_of_here).
    cbn [mbind result_bind].
    rewrite IH by (intros c' Hc'; apply Hcs; now right).
    destruct (decide (c ≠ r)) as [Hne|Heq].
    + cbn [fst snd].
      rewrite (@list_alter_alter_eq Q), (@list_alter_alter_eq (list _)).
      rewrite !filter_cons_True by assumption.
      apply (f_equal Ok), (f_equal2 pair).
      * apply list_alter_ext; [|reflexivity]. intros s _. reflexivity.
      * apply list_alter_ext; [|reflexivity].
        intros ps _. simpl. now rewrite <- app_assoc.
    + now rewrite !filter_cons_False by assumption.
Qed.

Lemma trialPairings_loop (df : Pd.DataFrame) (self : Ctree.t) (g : Ctree.Tree)
    (ids done todo : list Z) :
  Ctree.tree self = Some g ->
  (forall c, c ∈ ids -> Ctree.node_values g c = Ok (Closed.column df c)) ->
  ids = Pd.columns df ->
  (forall c, c ∈ todo -> c ∈ ids) ->
  forM (fun st ir =>
          let st := (st.1, st.2 ++ [[]]) in
          forM (Ctree.pairWithRoot self ir.1 ir.2) st ids)
    ((Closed.tauSum df <$> done) ++ Np.zeros (length todo),
     Closed.rowPairs df <$> done)
    (enumerate_from (length done) todo)
  = Ok (Closed.tauSum df <$> (done ++ todo),
        Closed.rowPairs df <$> (done ++ todo)).
Proof.
  intros Hg Hids Hcols. revert done.
  induction todo as [|r todo IH]; intros done Hin.
  - simpl. now rewrite !app_nil_r.
  - cbn [enumerate_from forM fst snd].
    rewrite (pairWithRoot_loop df self g) by (auto using list_elem_of_here).
    cbn [mbind result_bind fst snd].
    match goal with
    | |- forM _ (?a, ?b) _ = _ =>
        assert (Hk : a = (Closed.tauSum df <$> (done ++ [r]))
                           ++ Np.zeros (length todo));
        [|assert (Hp : b = Closed.rowPairs df <$> (done ++ [r]))]
    end.
    { rewrite alter_app_r_alt by (rewrite length_fmap; lia).
      rewrite length_fmap, Nat.sub_diag. simpl.
      rewrite fmap_app, <- app_assoc. simpl.
      unfold Closed.tauSum, Closed.others. now rewrite Hcols. }
    { rewrite alter_app_r_alt by (rewrite length_fmap; lia).
      rewrite length_fmap, Nat.sub_diag. simpl.
      rewrite fmap_app. simpl.
      unfold Closed.rowPairs, Closed.others. now rewrite Hcols. }
    rewrite Hk, Hp.
    replace (S (length done)) with (length (done ++ [r]))
      by (rewrite length_app; simpl; lia).
    rewrite IH by (intros c Hc; apply Hin; now right).
    now rewrite <- !app_assoc.
Qed.

(** On an instance built from [df], the loops end with the sums and the
    pairings of the closed forms, one entry per column. *)
Lemma trialPairings_closed_form (df : Pd.DataFrame) (self : Ctree.t) :
  builtFrom df self ->
  Ctree.trialPairings self
  = Ok (Closed.tauSum df <$> Pd.columns df,
        Closed.rowPairs df <$> Pd.columns df).
Proof.
  intros (Hd & g & Hg & _ & Hnodes).
  unfold Ctree.trialPairings, Ctree.get_data. rewrite Hd.
  cbn [orRaise mbind result_bind].
  apply (trialPairings_loop df self g (Pd.columns df) [] (Pd.columns df));
    auto.
Qed.

End Selection.

(** ** [np.argmax] *)

Lemma argmax_from_first_maximum (a pre : list Q) (bi : nat) (b : Q) :
  pre !! bi = Some b ->
  (forall j x, pre !! j = Some x -> (x <= b)%Q) ->
  (forall j x, pre !! j = Some x -> (j < bi)%nat -> (x < b)%Q) ->
  exists vk,
    (pre ++ a) !! Np.argmax_from bi b (length pre) a = Some vk /\
    (forall j x, (pre ++ a) !! j = Some x -> (x <= vk)%Q) /\
    (forall j x, (pre ++ a) !! j = Some x ->
                 (j < Np.argmax_from bi b (length pre) a)%nat -> (x < vk)%Q).
Proof.
  revert pre bi b.
  induction a as [|x a IH]; intros pre bi b Hbi Hmax Hfirst.
  - exists b. rewrite app_nil_r. simpl. auto.
  - assert (Happ : pre ++ x :: a = (pre ++ [x]) ++ a)
      by now rewrite <- app_assoc.
    assert (Hlen : S (length pre) = length (pre ++ [x]))
      by (rewrite length_app; simpl; lia).
    simpl. rewrite Happ, Hlen.
    destruct (Qlt_le_dec b x) as [Hlt|Hle].
    + assert (Hx : (pre ++ [x]) !! length pre = Some x)
        by now apply list_lookup_middle.
      apply IH; [exact Hx| |].
      * intros j y Hj. apply lookup_app_Some in Hj as [Hj|[_ Hj]].
        -- apply Qlt_le_weak, Qle_lt_trans with b; eauto.
        -- apply list_lookup_singleton_Some in Hj as [_ <-]. apply Qle_refl.
      * intros j y Hj Hjlt. apply lookup_app_Some in Hj as [Hj|[Hge _]].
        -- apply Qle_lt_trans with b; eauto.
        -- lia.
    + apply IH.
      * apply lookup_app_l_Some. exact Hbi.
      * intros j y Hj. apply lookup_app_Some in Hj as [Hj|[_ Hj]].
        -- eauto.
        -- apply list_lookup_singleton_Some in Hj as [_ <-]. exact Hle.
      * intros j y Hj Hjlt. apply lookup_app_Some in Hj as [Hj|[Hge _]].
        -- eauto.
        -- apply lookup_lt_Some in Hbi. lia.
Qed.

(** On a non-empty array [np.argmax] returns an index of a maximum, and every
    earlier element is strictly smaller. *)
Lemma argmax_first_maximum (a : list Q) :
  a ≠ [] ->
  exists k vk,
    Np.argmax a = Ok k /\ a !! k = Some vk /\
    (forall j x, a !! j = Some x -> (x <= vk)%Q) /\
    (forall j x, a !! j = Some x -> (j < k)%nat -> (x < vk)%Q).
Proof.
  destruct a as [|x a]; [congruence|]. intros _.
  destruct (argmax_from_first_maximum a [x] 0 x) as (vk & Hk & Hmax & Hfirst).
  - reflexivity.
  - intros j y Hj. apply list_lookup_singleton_Some in Hj as [_ <-].
    apply Qle_refl.
  - intros j y _ Hj. lia.
  - exists (Np.argmax_from 0 x 1 a), vk. simpl in *. auto.
Qed.

(** ** Root selection *)

Lemma init_body_inv (df : Pd.DataFrame) (lvl : option Z)
    (kwargs : gmap string (list Z)) (self : Ctree.t) :
  Ctree.init_body Ctree.new (Ctree.DataFrameArg df) lvl kwargs = Ok self ->
  builtFrom df self.
Proof.
  intros Hinit.
  destruct (init_body_builtFrom df lvl kwargs) as (self' & Hinit' & Hbuilt).
  congruence.
Qed.

(** The selection in closed form: the index that [np.argmax] returns, the
    root at that index, its pairings, and the two properties of the index. *)
Lemma selectSpanningTree_closed_form `{PcBase} (df : Pd.DataFrame)
    (self : Ctree.t) :
  df ≠ [] -> builtFrom df self ->
  exists b r,
    Ctree.bestPairingIndex self = Ok b /\
    Pd.columns df !! b = Some r /\
    Ctree._selectSpanningTree self = Ok (Closed.rowPairs df r) /\
    (forall j c, Pd.columns df !! j = Some c ->
                 (Closed.score df c <= Closed.score df r)%Q) /\
    (forall j c, Pd.columns df !! j = Some c -> (j < b)%nat ->
                 (Closed.score df c < Closed.score df r)%Q).
Proof.
  intros Hne Hbuilt.
  pose proof (trialPairings_closed_form df self Hbuilt) as Hloops.
  destruct (argmax_first_maximum
              (Np.abs (Closed.tauSum df <$> Pd.columns df)))
    as (b & vb & Hb & Hvb & Hmax & Hfirst).
  { destruct df; [congruence|discriminate]. }
  unfold Np.abs in Hvb, Hmax, Hfirst.
  rewrite <- list_fmap_compose in Hvb, Hmax, Hfirst.
  apply list_lookup_fmap_Some in Hvb as (r & -> & Hr).
  exists b, r. split; [|split; [|split; [|split]]].
  - unfold Ctree.bestPairingIndex. rewrite Hloops. exact Hb.
  - exact Hr.
  - unfold Ctree._selectSpanningTree. rewrite Hloops.
    cbn [mbind result_bind fst snd]. rewrite Hb.
    cbn [mbind result_bind]. now rewrite list_lookup_fmap, Hr.
  - intros j c Hc. apply (Hmax j).
    now rewrite list_lookup_fmap, Hc.
  - intros j c Hc Hlt. apply (Hfirst j); [|exact Hlt].
    now rewrite list_lookup_fmap, Hc.
Qed.



Lemma two_columns_tie :
  @Ctree.bestPairingIndex Kendall.pcBase Built.self2 = Ok 0%nat /\
  @Ctree._selectSpanningTree Kendall.pcBase Built.self2
  = Ok [(0, 1, 2 # 3)]%Z%Q /\
  (@Closed.score Kendall.pcBase Built.df2 0
   == @Closed.score Kendall.pcBase Built.df2 1)%Q.
Proof. repeat split. Qed.

Lemma built_examples :
  Example.built Built.df2 = Ok Built.self2 /\
  Example.built Example.df3 = Ok Built.self3 /\
  Example.built Example.df4 = Ok Built.self4.
Proof. repeat split. Qed.

(** C1, on the code.  For the three columns of [df3], Kendall's tau is 2/3
    between columns 0 and 1, -2/3 between 0 and 2, and -1/3 between 1 and 2.
    The sums of the absolute values are 4/3, 1 and 1, so the root of the
    specification is column 0.  The code adds the signed values (0, 1/3 and
    -1) and takes the absolute value of each sum: it selects column 2. *)
Theorem root_selection_sums_signed_taus :
  Example.built Example.df3 = Ok Built.self3 /\
  @Ctree.trialPairings Kendall.pcBase Built.self3
  = Ok ([0 # 9; 3 # 9; -9 # 9]%Q,
        [[(0, 1, 2 # 3); (0, 2, -2 # 3)];
         [(1, 0, 2 # 3); (1, 2, -1 # 3)];
         [(2, 0, -2 # 3); (2, 1, -1 # 3)]]%Z%Q) /\
  @Ctree.bestPairingIndex Kendall.pcBase Built.self3 = Ok 2%nat /\
  @Ctree._selectSpanningTree Kendall.pcBase Built.self3
  = Ok [(2, 0, -2 # 3); (2, 1, -1 # 3)]%Z%Q /\
  (@Spec.absTauScore Kendall.pcBase Example.df3 0 == 4 # 3)%Q /\
  (@Spec.absTauScore Kendall.pcBase Example.df3 1 == 1)%Q /\
  (@Spec.absTauScore Kendall.pcBase Example.df3 2 == 1)%Q /\
  (@Spec.absTauScore Kendall.pcBase Example.df3 2
   < @Spec.absTauScore Kendall.pcBase Example.df3 0)%Q.
Proof. repeat split. Qed.

(** C4, on the code.  With a user-supplied structure [setEdges] stores the
    given pairs as they are.  On four nodes the pairs (0,1), (2,3) give two
    edges, not three, and no node lies on both; the pairs (0,1), (1,2),
    (2,3) give three edges that form a path, where nodes 1 and 2 both have
    degree 2.  Neither graph is a C-tree. *)
Theorem setEdges_keeps_user_pairs :
  Example.built Example.df4 = Ok Built.self4 /\
  (exists g,
      (self ← @Ctree.setEdges Kendall.pcBase Built.self4
                (Some [(0, 1); (2, 3)]%Z);
       Ctree.get_tree self) = Ok g /\
      Nx.node g = Built.nodes Example.df4 /\
      Nx.edge g = [(0, 1, Built.edgeAttr Example.df4 0 1);
                   (2, 3, Built.edgeAttr Example.df4 2 3)]%Z /\
      Nx.number_of_nodes g = 4%nat /\
      Nx.number_of_edges g = 2%nat /\
      ~ Spec.isCTree g) /\
  (exists g,
      (self ← @Ctree.setEdges Kendall.pcBase Built.self4
                (Some [(0, 1); (1, 2); (2, 3)]%Z);
       Ctree.get_tree self) = Ok g /\
      Nx.number_of_nodes g = 4%nat /\
      Nx.number_of_edges g = 3%nat /\
      Nx.degree 1 g = 2%nat /\
      Nx.degree 2 g = 2%nat /\
      ~ Spec.isCTree g).
Proof.
  split; [reflexivity|]. split.
  - eexists. split; [reflexivity|].
    repeat (split; [reflexivity|]).
    intros [Hcount _]. discriminate Hcount.
  - eexists. split; [reflexivity|].
    repeat (split; [reflexivity|]).
    intros [_ (root & _ & Hdeg)].
    destruct (decide (root = 1%Z)) as [->|Hne].
    + specialize (Hdeg 2%Z). vm_compute in Hdeg.
      assert (Hle : (2 <= 1)%nat) by now apply Hdeg. lia.
    + specialize (Hdeg 1%Z). vm_compute in Hdeg.
      assert (Hle : (2 <= 1)%nat) by (apply Hdeg; congruence). lia.
Qed.

(** C5, on the code.  On the tree selected for [df3] (root 2), fitted by a
    tournament that the independence copula wins, [evalH] visits the edges
    as (0, 2) and (1, 2) and hands [h] the attribute dictionaries of the two
    end nodes and the rotation 0.  With [h(u, v) = v] the value stored on
    both edges is the dictionary of node 2, the root: no series of a
    non-root node is produced, and the root's own data is what is stored. *)
Theorem evalH_passes_node_dictionaries :
  exists g,
    (self ← @Ctree.setEdges Kendall.pcBase Built.self3 None;
     self ← @Ctree.fitCopula Kendall.pcBase self;
     self ← Ctree.evalH self;
     Ctree.get_tree self) = Ok g /\
    (fun e => (e.1, Ctree.h_dist e.2)) <$> Nx.edges g
    = [(0, 2, Some (HNode (mkNode (Some Example.x2))));
       (1, 2, Some (HNode (mkNode (Some Example.x2))))]%Z /\
    (forall e, e ∈ Nx.edges g ->
               Ctree.h_dist e.2 ≠ Some (HSeries Example.x0) /\
               Ctree.h_dist e.2 ≠ Some (HSeries Example.x1)).
Proof.
  eexists. split; [reflexivity|]. split; [reflexivity|].
  intros e He. vm_compute in He.
  apply elem_of_cons in He as [->|He].
  - split; discriminate.
  - apply elem_of_cons in He as [->|He].
    + split; discriminate.
    + now apply elem_of_nil in He.
Qed.

(** ** Automatic edge selection gives a star *)

Lemma assoc_set_fresh {A} (k : Z) (a : A) (l : list (Z * A)) :
  Pd.assoc k l = None -> Nx.assoc_set k a l = l ++ [(k, a)].
Proof.
  induction l as [|[k0 a0] l IH]; simpl; [reflexivity|].
  destruct (decide (k0 = k)); [discriminate|].
  intros Hnone. now rewrite IH.
Qed.

Lemma assoc_app_None {A} (k : Z) (l1 l2 : list (Z * A)) :
  Pd.assoc k l1 = None -> Pd.assoc k (l1 ++ l2) = Pd.assoc k l2.
Proof.
  induction l1 as [|[k0 a0] l1 IH]; simpl; [reflexivity|].
  destruct (decide (k0 = k)); [discriminate|]. exact IH.
Qed.

Lemma nodesBuilt_fresh (df : Pd.DataFrame) (cs : list Z) (g : Ctree.Tree) :
  NoDup cs ->
  (forall c, c ∈ cs -> Pd.assoc c (Nx.node g) = None) ->
  Nx.node (nodesBuilt df cs g)
  = Nx.node g ++ ((fun c => (c, mkNode (Some (Closed.column df c)))) <$> cs).
Proof.
  intros Hnd. revert g.
  induction Hnd as [|c cs Hc Hnd IH]; intros g Hfresh.
  - simpl. now rewrite app_nil_r.
  - change (nodesBuilt df (c :: cs) g)
      with (nodesBuilt df cs
              (Nx.add_node c (mkNode (Some (Closed.column df c))) g)).
    rewrite IH.
    + unfold Nx.add_node. cbn [Nx.node].
      rewrite (Hfresh c) by left. cbn [default].
      rewrite assoc_set_fresh by (apply Hfresh; left).
      now rewrite <- app_assoc.
    + intros c' Hc'. unfold Nx.add_node. cbn [Nx.node].
      rewrite assoc_assoc_set, decide_False by (intros ->; contradiction).
      apply Hfresh. now right.
Qed.

Lemma init_body_exact (df : Pd.DataFrame) (lvl : option Z)
    (kwargs : gmap string (list Z)) :
  Ctree.init_body Ctree.new (Ctree.DataFrameArg df) lvl kwargs
  = Ok (Ctree.mk (Some df) (Some (length df)) (Some lvl)
          (Some (nodesBuilt df (Pd.columns df) Nx.new))).
Proof.
  unfold Ctree.init_body, Ctree._buildNodes. simpl.
  now rewrite (buildNodes_loop df (Pd.columns df) _ Nx.new).
Qed.

Lemma setEdges_loop (df : Pd.DataFrame) (ps : list (Z * Z * Q))
    (self : Ctree.t) (g : Ctree.Tree) :
  Ctree.data self = Some df -> Ctree.tree self = Some g ->
  (forall p, p ∈ ps -> p.1.1 ∈ Pd.columns df /\ p.1.2 ∈ Pd.columns df) ->
  forM (fun self pair =>
          d ← Ctree.get_data self;
          u ← Pd.getitem d pair.1.1;
          v ← Pd.getitem d pair.1.2;
          g ← Ctree.get_tree self;
          Ok (Ctree.set_tree
                (Nx.add_edge pair.1.1 pair.1.2
                   (Ctree.mkEdge (Some pair.2) (Some (mkPairCopula u v))
                      None None)
                   g)
                self))
    self ps
  = Ok (Ctree.set_tree (edgesAdded df ps g) self).
Proof.
  revert self g.
  induction ps as [|p ps IH]; intros self g Hd Hg Hin.
  - simpl. destruct self; simpl in *. now subst.
  - destruct (Hin p) as [Ha Hb]; [left|].
    cbn [forM]. unfold Ctree.get_data, Ctree.get_tree, Pd.getitem.
    rewrite Hd, Hg. cbn [orRaise mbind result_bind].
    rewrite !assoc_Some_columns by assumption.
    cbn [orRaise mbind result_bind].
    unfold Ctree.get_data, Ctree.get_tree, Pd.getitem in IH.
    rewrite (IH _ (edgesAdded df [p] g));
      [reflexivity|assumption|reflexivity|].
    intros p' Hp'. apply Hin. now right.
Qed.

Section Star.
Context `{PcBase}.

Lemma get_edge_star_None (df : Pd.DataFrame) (r c : Z) (cs : list Z) :
  c ≠ r -> c ∉ cs -> Nx.get_edge r c (starEdge df r <$> cs) = None.
Proof.
  intros Hcr. induction cs as [|c0 cs IH]; intros Hnin; [reflexivity|].
  apply not_elem_of_cons in Hnin as [Hne Hnin].
  cbn [fmap list_fmap Nx.get_edge starEdge]. unfold Nx.same_edge.
  rewrite bool_decide_eq_false_2.
  - apply IH, Hnin.
  - intros [[_ ->]|[-> _]]; congruence.
Qed.

Lemma set_edge_fresh (u v : Z) (d : Ctree.EdgeAttr)
    (es : list (Z * Z * Ctree.EdgeAttr)) :
  Nx.get_edge u v es = None -> Nx.set_edge u v d es = es ++ [(u, v, d)].
Proof.
  induction es as [|[[a b] d0] es IH]; simpl; [reflexivity|].
  destruct (Nx.same_edge u v a b); [discriminate|].
  intros Hnone. now rewrite IH.
Qed.

Lemma ensure_node_present (u : Z) (g : Ctree.Tree) (a : NodeAttr) :
  Pd.assoc u (Nx.node g) = Some a -> Nx.ensure_node u g = g.
Proof. unfold Nx.ensure_node. now intros ->. Qed.

(** Storing the pairings of the root [r] with the distinct nodes [cs], none
    of them [r], appends one edge per node and leaves the nodes alone. *)
Lemma edgesAdded_star (df : Pd.DataFrame) (r : Z) (cs cs0 : list Z)
    (g : Ctree.Tree) :
  NoDup (cs0 ++ cs) -> r ∉ cs ->
  (forall c, c = r \/ c ∈ cs -> is_Some (Pd.assoc c (Nx.node g))) ->
  Nx.edge g = starEdge df r <$> cs0 ->
  edgesAdded df ((fun c => (r, c, Closed.pairTau df r c)) <$> cs) g
  = Nx.mkGraph (Nx.node g) (starEdge df r <$> (cs0 ++ cs)).
Proof.
  revert cs0 g.
  induction cs as [|c cs IH]; intros cs0 g Hnd Hr Hnodes Hedge.
  - simpl. rewrite app_nil_r, <- Hedge. now destruct g.
  - apply not_elem_of_cons in Hr as [Hrc Hr].
    assert (Hnd' : NoDup ((cs0 ++ [c]) ++ cs)) by now rewrite <- app_assoc.
    assert (Hc0 : c ∉ cs0).
    { apply NoDup_app in Hnd as (_ & Hdisj & _).
      intros Hin. apply (Hdisj c Hin). left. }
    destruct (Hnodes r) as [ar Har]; [now left|].
    destruct (Hnodes c) as [ac Hac]; [right; left|].
    cbn [fmap list_fmap].
    change (edgesAdded df ((r, c, Closed.pairTau df r c) :: ?ps) g)
      with (edgesAdded df ps
              (Nx.add_edge r c
                 (Ctree.mkEdge (Some (Closed.pairTau df r c))
                    (Some (mkPairCopula (Closed.column df r)
                             (Closed.column df c)))
                    None None) g)).
    assert (Hstep : Nx.add_edge r c
                 (Ctree.mkEdge (Some (Closed.pairTau df r c))
                    (Some (mkPairCopula (Closed.column df r)
                             (Closed.column df c)))
                    None None) g
              = Nx.mkGraph (Nx.node g) (starEdge df r <$> (cs0 ++ [c]))).
    { unfold Nx.add_edge.
      rewrite (ensure_node_present r g ar Har).
      rewrite (ensure_node_present c g ac Hac).
      rewrite Hedge, get_edge_star_None by (auto; congruence).
      rewrite set_edge_fresh by (apply get_edge_star_None; auto; congruence).
      now rewrite fmap_app. }
    rewrite Hstep, (IH (cs0 ++ [c])); cbn [Nx.node Nx.edge].
    + now rewrite <- app_assoc.
    + exact Hnd'.
    + exact Hr.
    + intros c' Hc'. apply Hnodes. destruct Hc' as [->|Hc']; [now left|].
      right. now right.
    + reflexivity.
Qed.



End Star.

Lemma nodesBuilt_columns (df : Pd.DataFrame) :
  NoDup (Pd.columns df) ->
  Nx.node (nodesBuilt df (Pd.columns df) Nx.new)
  = (fun c => (c, mkNode (Some (Closed.column df c)))) <$> Pd.columns df.
Proof.
  intros Hnd. now rewrite nodesBuilt_fresh by (auto; reflexivity).
Qed.



(** ** A user-supplied structure is stored as given *)

Lemma setTreeStructure_loop `{PcBase} (df : Pd.DataFrame) (self : Ctree.t)
    (g : Ctree.Tree) (nodePairs : list (Z * Z)) (acc : list (Z * Z * Q)) :
  Ctree.tree self = Some g ->
  (forall c, c ∈ Pd.columns df ->
             Ctree.node_values g c = Ok (Closed.column df c)) ->
  (forall p, p ∈ nodePairs -> p.1 ∈ Pd.columns df /\ p.2 ∈ Pd.columns df) ->
  forM (fun treeStructure pair =>
          g ← Ctree.get_tree self;
          u ← Ctree.node_values g pair.1;
          v ← Ctree.node_values g pair.2;
          let trialPair := mkPairCopula u v in
          Ok (treeStructure ++ [(pair.1, pair.2, empKTau trialPair)]))
    acc nodePairs
  = Ok (acc ++ ((fun p => (p.1, p.2, Closed.pairTau df p.1 p.2))
                  <$> nodePairs)).
Proof.
  intros Hg Hnodes. revert acc.
  induction nodePairs as [|p ps IH]; intros acc Hin.
  - simpl. now rewrite app_nil_r.
  - destruct (Hin p) as [Ha Hb]; [left|].
    cbn [forM]. unfold Ctree.get_tree. rewrite Hg.
    cbn [orRaise mbind result_bind].
    rewrite (Hnodes _ Ha). cbn [mbind result_bind].
    rewrite (Hnodes _ Hb). cbn [mbind result_bind].
    unfold Ctree.get_tree in IH. rewrite Hg in IH. rewrite IH.
    + cbn [fmap list_fmap]. now rewrite <- app_assoc.
    + intros p' Hp'. apply Hin. now right.
Qed.

(** X2. With a non-empty user-supplied structure whose labels are columns of
    the data, [setEdges] performs no check and no selection: it adds the
    given pairs, each weighted with its Kendall's tau, in the given order. *)
Theorem setEdges_user_structure_unchecked `{PcBase} (df : Pd.DataFrame)
    (lvl : option Z) (kwargs : gmap string (list Z)) (self : Ctree.t)
    (p : Z * Z) (ps : list (Z * Z)) :
  Ctree.init_body Ctree.new (Ctree.DataFrameArg df) lvl kwargs = Ok self ->
  (forall q, q ∈ p :: ps -> q.1 ∈ Pd.columns df /\ q.2 ∈ Pd.columns df) ->
  Ctree._setTreeStructure self (p :: ps)
  = Ok ((fun q => (q.1, q.2, Closed.pairTau df q.1 q.2)) <$> (p :: ps)) /\
  exists g0,
    Ctree.tree self = Some g0 /\
    Ctree.setEdges self (Some (p :: ps))
    = Ok (Ctree.set_tree
            (edgesAdded df
               ((fun q => (q.1, q.2, Closed.pairTau df q.1 q.2)) <$> (p :: ps))
               g0)
            self).
Proof.
  intros Hinit Hin.
  destruct (init_body_inv df lvl kwargs self Hinit)
    as (Hd & g0 & Hg0 & _ & Hnodes).
  assert (Hsts : Ctree._setTreeStructure self (p :: ps)
                 = Ok ((fun q => (q.1, q.2, Closed.pairTau df q.1 q.2))
                         <$> (p :: ps))).
  { unfold Ctree._setTreeStructure.
    now rewrite (setTreeStructure_loop df self g0 (p :: ps) []). }
  split; [exact Hsts|]. exists g0. split; [exact Hg0|].
  unfold Ctree.setEdges. rewrite Hsts. cbn [mbind result_bind].
  apply setEdges_loop; [exact Hd|exact Hg0|].
  intros q Hq. apply list_elem_of_fmap in Hq as (q' & -> & Hq').
  cbn [fst snd]. now apply Hin.
Qed.

Lemma setEdges_user_structure_unchecked_witness :
  @Ctree._setTreeStructure Kendall.pcBase Built.self4 [(0, 1); (2, 3)]%Z
  = Ok ((fun q => (q.1, q.2, @Closed.pairTau Kendall.pcBase Example.df4 q.1 q.2))
          <$> [(0, 1); (2, 3)]%Z) /\
  exists g0,
    Ctree.tree Built.self4 = Some g0 /\
    @Ctree.setEdges Kendall.pcBase Built.self4 (Some [(0, 1); (2, 3)]%Z)
    = Ok (Ctree.set_tree
            (edgesAdded Example.df4
               ((fun q => (q.1, q.2,
                           @Closed.pairTau Kendall.pcBase Example.df4 q.1 q.2))
                  <$> [(0, 1); (2, 3)]%Z)
               g0)
            Built.self4).
Proof.
  apply (@setEdges_user_structure_unchecked Kendall.pcBase Example.df4 None ∅
           Built.self4 (0, 1)%Z [(2, 3)%Z]).
  - reflexivity.
  - intros q Hq.
    apply elem_of_cons in Hq as [->|Hq];
      [|apply list_elem_of_singleton in Hq as ->];
      split; apply (bool_decide_unpack _); vm_compute; exact I.
Defined.

(** ** The independence copula as a copula *)

Lemma cdf_equal_length (u v : Np.ndarray) (rotation : Z) (params : list Q) :
  length u = length v ->
  IndepCopula._cdf u v rotation params = Ok (zip_with Qmult u v).
Proof.
  intros Hlen. unfold IndepCopula._cdf, Np.mul. now rewrite decide_True.
Qed.

Lemma lookup_product (u v : Np.ndarray) (i : nat) (x : Q) :
  zip_with Qmult u v !! i = Some x ->
  exists a b, u !! i = Some a /\ v !! i = Some b /\ x = (a * b)%Q.
Proof.
  intros Hx. apply lookup_zip_with_Some in Hx as (a & b & -> & Ha & Hb).
  eauto.
Qed.

(** X3. The cumulative distribution of the independence copula has uniform
    margins and is grounded: against a sequence of ones it returns its other
    argument, against a sequence of zeros it returns zeros, in either
    position. *)
Theorem indep_cdf_margins (u : Np.ndarray) (rotation : Z) (params : list Q) :
  (exists w, IndepCopula._cdf u (Np.ones (length u)) rotation params = Ok w /\
             Forall2 Qeq w u) /\
  (exists w, IndepCopula._cdf (Np.ones (length u)) u rotation params = Ok w /\
             Forall2 Qeq w u) /\
  (exists w, IndepCopula._cdf u (Np.zeros (length u)) rotation params = Ok w /\
             length w = length u /\ Forall (fun x => x == 0)%Q w) /\
  (exists w, IndepCopula._cdf (Np.zeros (length u)) u rotation params = Ok w /\
             length w = length u /\ Forall (fun x => x == 0)%Q w).
Proof.
  unfold Np.ones, Np.zeros.
  repeat split; eexists;
    (split; [apply cdf_equal_length; now rewrite length_replicate|]).
  - induction u as [|x u IH]; simpl; constructor; [ring|exact IH].
  - induction u as [|x u IH]; simpl; constructor; [ring|exact IH].
  - split; [rewrite length_zip_with, length_replicate; lia|].
    induction u as [|x u IH]; simpl; constructor; [ring|exact IH].
  - split; [rewrite length_zip_with, length_replicate; lia|].
    induction u as [|x u IH]; simpl; constructor; [ring|exact IH].
Qed.



(** X5. For sequences of one length with values in [0,1], every value of the
    cumulative distribution lies between the Frechet-Hoeffding bounds:
    u + v - 1 <= C(u, v), 0 <= C(u, v), C(u, v) <= u and C(u, v) <= v. *)
Theorem indep_cdf_frechet_bounds (u v : Np.ndarray) (rotation : Z)
    (params : list Q) :
  length u = length v -> Spec.inClosedUnit u -> Spec.inClosedUnit v ->
  exists w,
    IndepCopula._cdf u v rotation params = Ok w /\
    forall i a b x,
      u !! i = Some a -> v !! i = Some b -> w !! i = Some x ->
      (a + b - 1 <= x)%Q /\ (0 <= x)%Q /\ (x <= a)%Q /\ (x <= b)%Q.
Proof.
  intros Hlen Hu Hv. exists (zip_with Qmult u v).
  split; [now apply cdf_equal_length|].
  intros i a b x Ha Hb Hx.
  apply lookup_product in Hx as (a' & b' & Ha' & Hb' & ->). simplify_eq.
  unfold Spec.inClosedUnit in Hu, Hv.
  destruct (proj1 (Forall_lookup _ _) Hu i a Ha) as [Ha0 Ha1].
  destruct (proj1 (Forall_lookup _ _) Hv i b Hb) as [Hb0 Hb1].
  repeat split; nra.
Qed.

Lemma indep_cdf_frechet_bounds_witness :
  exists w,
    IndepCopula._cdf [0; 1#2; 1]%Q [1#3; 3#4; 1]%Q 0 [1%Q] = Ok w /\
    forall i a b x,
      [0; 1#2; 1]%Q !! i = Some a -> [1#3; 3#4; 1]%Q !! i = Some b ->
      w !! i = Some x ->
      (a + b - 1 <= x)%Q /\ (0 <= x)%Q /\ (x <= a)%Q /\ (x <= b)%Q.
Proof.
  apply (indep_cdf_frechet_bounds [0; 1#2; 1]%Q [1#3; 3#4; 1]%Q 0 [1%Q]).
  - reflexivity.
  - unfold Spec.inClosedUnit. repeat constructor; discriminate.
  - unfold Spec.inClosedUnit. repeat constructor; discriminate.
Defined.

Lemma product_symmetric (u v : Np.ndarray) :
  Forall2 Qeq (zip_with Qmult u v) (zip_with Qmult v u).
Proof.
  revert v. induction u as [|x u IH]; intros [|y v]; simpl; constructor.
  - ring.
  - apply IH.
Qed.

Lemma scale_symmetric (x : Q) (v : Np.ndarray) :
  Forall2 Qeq (Qmult x <$> v) ((fun z => z * x)%Q <$> v).
Proof.
  induction v as [|y v IH]; simpl; constructor; [ring|exact IH].
Qed.

Lemma Forall2_Qeq_sym (w w' : Np.ndarray) :
  Forall2 Qeq w w' -> Forall2 Qeq w' w.
Proof.
  induction 1; constructor; [now symmetry|assumption].
Qed.

(** X6. The cumulative distribution is symmetric in its two arguments, also
    where an argument of length one is spread over the other: the two calls
    return equal sequences, or both raise the same exception. *)
Theorem indep_cdf_symmetric (u v : Np.ndarray) (rotation : Z)
    (params : list Q) :
  match IndepCopula._cdf u v rotation params,
        IndepCopula._cdf v u rotation params with
  | Ok w, Ok w' => Forall2 Qeq w w'
  | Raise e, Raise e' => e = e'
  | _, _ => False
  end.
Proof.
  unfold IndepCopula._cdf, Np.mul.
  destruct (decide (length u = length v)) as [Hlen|Hlen].
  - rewrite (decide_True (P := length v = length u)) by congruence.
    apply product_symmetric.
  - rewrite (decide_False (P := length v = length u)) by congruence.
    destruct u as [|x [|x' u]], v as [|y [|y' v]]; simpl in *;
      try congruence; try reflexivity;
      first [ apply (scale_symmetric x (y :: y' :: v))
            | apply Forall2_Qeq_sym, (scale_symmetric y (x :: x' :: u))
            | constructor ].
Qed.

(** X7. The cumulative distribution returns a sequence exactly when the two
    lengths agree or one of them is 1; it raises [ValueError] otherwise.  The
    density and the conditional never raise: they return [len(u)] ones and
    [v] itself, whatever the other argument. *)
Theorem indep_cdf_raises_on_shape_mismatch (u v : Np.ndarray) (rotation : Z)
    (params : list Q) :
  (IndepCopula._cdf u v rotation params = Raise ValueError <->
   length u ≠ length v /\ length u ≠ 1%nat /\ length v ≠ 1%nat) /\
  (forall w, IndepCopula._cdf u v rotation params = Ok w ->
             length w = if decide (length u = 1%nat) then length v
                        else length u) /\
  (forall e, IndepCopula._cdf u v rotation params = Raise e ->
             e = ValueError) /\
  length (IndepCopula._pdf u v rotation params) = length u /\
  length (IndepCopula._h u v rotation params) = length v.
Proof.
  unfold IndepCopula._cdf, Np.mul, IndepCopula._pdf, IndepCopula._h, Np.ones.
  rewrite length_replicate.
  destruct (decide (length u = length v)) as [Hlen|Hlen].
  - repeat split; try discriminate; try tauto.
    intros w [= <-]. rewrite length_zip_with.
    case_decide; lia.
  - destruct u as [|x [|x' u]], v as [|y [|y' v]]; simpl in *;
      try congruence; repeat split;
      try discriminate; try congruence; try tauto; try lia;
      try (intros w [= <-]; simpl; rewrite ?length_fmap; reflexivity);
      try (intros (_ & H1 & H2); congruence).
Qed.



(** ** The generator *)






(** ** Errors of edge selection *)

Lemma built_node_values `{PcBase} (df : Pd.DataFrame) (c : Z) :
  Ctree.node_values (nodesBuilt df (Pd.columns df) Nx.new) c
  = if decide (c ∈ Pd.columns df) then Ok (Closed.column df c)
    else Raise KeyError.
Proof.
  unfold Ctree.node_values, Nx.node_get. rewrite nodesBuilt_assoc.
  destruct (decide (c ∈ Pd.columns df)); reflexivity.
Qed.

Lemma setTreeStructure_loop_raises `{PcBase} (df : Pd.DataFrame)
    (self : Ctree.t) (nodePairs : list (Z * Z)) (acc : list (Z * Z * Q)) :
  Ctree.tree self = Some (nodesBuilt df (Pd.columns df) Nx.new) ->
  (exists q, q ∈ nodePairs /\
             (q.1 ∉ Pd.columns df \/ q.2 ∉ Pd.columns df)) ->
  forM (fun treeStructure pair =>
          g ← Ctree.get_tree self;
          u ← Ctree.node_values g pair.1;
          v ← Ctree.node_values g pair.2;
          let trialPair := mkPairCopula u v in
          Ok (treeStructure ++ [(pair.1, pair.2, empKTau trialPair)]))
    acc nodePairs
  = Raise KeyError.
Proof.
  intros Hg. revert acc.
  induction nodePairs as [|p ps IH]; intros acc (q & Hq & Hbad).
  - now apply elem_of_nil in Hq.
  - cbn [forM]. unfold Ctree.get_tree. rewrite Hg.
    cbn [orRaise mbind result_bind]. rewrite !built_node_values.
    unfold Ctree.get_tree in IH. rewrite Hg in IH.
    destruct (decide (p.1 ∈ Pd.columns df)) as [Hp1|Hp1]; [|reflexivity].
    cbn [mbind result_bind].
    destruct (decide (p.2 ∈ Pd.columns df)) as [Hp2|Hp2]; [|reflexivity].
    cbn [mbind result_bind].
    apply IH. exists q. split; [|exact Hbad].
    apply elem_of_cons in Hq as [->|Hq]; [|exact Hq].
    destruct Hbad; contradiction.
Qed.

(** X11. A user-supplied structure that names a label which is no column of
    the data makes [_setTreeStructure], and with it [setEdges], raise
    [KeyError], wherever in the list the pair stands. *)
Theorem setEdges_unknown_label_raises `{PcBase} (df : Pd.DataFrame)
    (lvl : option Z) (kwargs : gmap string (list Z)) (self : Ctree.t)
    (p : Z * Z) (ps : list (Z * Z)) :
  Ctree.init_body Ctree.new (Ctree.DataFrameArg df) lvl kwargs = Ok self ->
  (exists q, q ∈ p :: ps /\
             (q.1 ∉ Pd.columns df \/ q.2 ∉ Pd.columns df)) ->
  Ctree._setTreeStructure self (p :: ps) = Raise KeyError /\
  Ctree.setEdges self (Some (p :: ps)) = Raise KeyError.
Proof.
  intros Hinit Hbad. rewrite init_body_exact in Hinit. injection Hinit as <-.
  assert (Hsts : Ctree._setTreeStructure
                   (Ctree.mk (Some df) (Some (length df)) (Some lvl)
                      (Some (nodesBuilt df (Pd.columns df) Nx.new)))
                   (p :: ps) = Raise KeyError).
  { unfold Ctree._setTreeStructure.
    now apply (setTreeStructure_loop_raises df). }
  split; [exact Hsts|]. unfold Ctree.setEdges. now rewrite Hsts.
Qed.

Lemma setEdges_unknown_label_raises_witness :
  @Ctree._setTreeStructure Kendall.pcBase Built.self3 [(0, 1); (1, 7)]%Z
  = Raise KeyError /\
  @Ctree.setEdges Kendall.pcBase Built.self3 (Some [(0, 1); (1, 7)]%Z)
  = Raise KeyError.
Proof.
  apply (@setEdges_unknown_label_raises Kendall.pcBase Example.df3 None ∅
           Built.self3 (0, 1)%Z [(1, 7)%Z]).
  - reflexivity.
  - exists (1, 7)%Z. split; [right; left|].
    right. apply (bool_decide_unpack _). vm_compute. exact I.
Defined.



(** ** Running a step again *)

Lemma assoc_set_same {A} (k : Z) (a : A) (l : list (Z * A)) :
  Pd.assoc k l = Some a -> Nx.assoc_set k a l = l.
Proof.
  induction l as [|[k0 a0] l IH]; simpl; [discriminate|].
  destruct (decide (k0 = k)) as [->|Hne].
  - now intros [= ->].
  - intros Hl. now rewrite IH.
Qed.

Lemma add_node_same (c : Z) (s : Pd.Series) (g : Ctree.Tree) :
  Pd.assoc c (Nx.node g) = Some (mkNode (Some s)) ->
  Nx.add_node c (mkNode (Some s)) g = g.
Proof.
  intros Hc. unfold Nx.add_node. rewrite Hc. cbn.
  rewrite assoc_set_same by exact Hc. now destruct g.
Qed.

Lemma nodesBuilt_fixed (df : Pd.DataFrame) (cs : list Z) (g : Ctree.Tree) :
  (forall c, c ∈ cs ->
             Pd.assoc c (Nx.node g) = Some (mkNode (Some (Closed.column df c)))) ->
  nodesBuilt df cs g = g.
Proof.
  induction cs as [|c cs IH]; intros Hcs; [reflexivity|].
  change (nodesBuilt df (c :: cs) g)
    with (nodesBuilt df cs
            (Nx.add_node c (mkNode (Some (Closed.column df c))) g)).
  rewrite add_node_same by (apply Hcs; left).
  apply IH. intros c' Hc'. apply Hcs. now right.
Qed.

(** X13. [_buildNodes] can be run again: whenever it returns, running it on
    the result returns the same instance (a node is keyed by its column
    label, and building it again stores the same series). *)
Theorem buildNodes_idempotent (self self' : Ctree.t) :
  Ctree._buildNodes self = Ok self' -> Ctree._buildNodes self' = Ok self'.
Proof.
  unfold Ctree._buildNodes.
  destruct self as [[df|] n l [g|]]; cbn [Ctree.get_data Ctree.data orRaise];
    cbn [mbind result_bind]; try discriminate.
  - rewrite (buildNodes_loop df (Pd.columns df) _ g);
      [|reflexivity|reflexivity|auto].
    intros [= <-]. cbn.
    rewrite (buildNodes_loop df (Pd.columns df) _
               (nodesBuilt df (Pd.columns df) g));
      [|reflexivity|reflexivity|auto].
    cbn. rewrite (nodesBuilt_fixed df (Pd.columns df)); [reflexivity|].
    intros c Hc. now rewrite nodesBuilt_assoc, decide_True.
  - destruct df as [|[c s] df]; cbn.
    + intros [= <-]. reflexivity.
    + unfold Pd.getitem. cbn [Pd.assoc].
      rewrite decide_True by reflexivity. discriminate.
Qed.

Lemma buildNodes_idempotent_witness :
  Ctree._buildNodes
    (Ctree.mk (Some Example.df3) None None
       (Some (Nx.mkGraph (Built.nodes Example.df3) [])))
  = Ok (Ctree.mk (Some Example.df3) None None
          (Some (Nx.mkGraph (Built.nodes Example.df3) []))).
Proof.
  apply (buildNodes_idempotent
           (Ctree.mk (Some Example.df3) None None (Some Nx.new))).
  reflexivity.
Defined.

Section Again.
Context `{PcBase}.

(** Automatic selection reads the data and the nodes only: its result is a
    function of the data frame as soon as the nodes carry the columns. *)
Lemma selectSpanningTree_of_nodes (df : Pd.DataFrame) (self : Ctree.t)
    (g : Ctree.Tree) :
  Ctree.data self = Some df -> Ctree.tree self = Some g ->
  (forall c, c ∈ Pd.columns df ->
             Ctree.node_values g c = Ok (Closed.column df c)) ->
  Ctree._selectSpanningTree self
  = (b ← Np.argmax (Np.abs (Closed.tauSum df <$> Pd.columns df));
     orRaise IndexError ((Closed.rowPairs df <$> Pd.columns df) !! b)).
Proof.
  intros Hd Hg Hnodes.
  unfold Ctree._selectSpanningTree, Ctree.trialPairings, Ctree.get_data.
  rewrite Hd. cbn [orRaise mbind result_bind].
  now rewrite (trialPairings_loop df self g (Pd.columns df) []
                 (Pd.columns df)).
Qed.

Lemma get_edge_star_Some (df : Pd.DataFrame) (r c : Z) (cs : list Z) :
  c ≠ r -> c ∈ cs ->
  Nx.get_edge r c (starEdge df r <$> cs) = Some (starEdge df r c).2.
Proof.
  intros Hcr. induction cs as [|c0 cs IH]; intros Hin.
  - now apply elem_of_nil in Hin.
  - cbn [fmap list_fmap Nx.get_edge]. unfold starEdge at 1.
    unfold Nx.same_edge.
    destruct (decide (c0 = c)) as [->|Hne].
    + rewrite bool_decide_eq_true_2 by (left; split; reflexivity).
      reflexivity.
    + rewrite bool_decide_eq_false_2
        by (intros [[_ ->]|[-> _]]; congruence).
      apply IH. apply elem_of_cons in Hin as [->|Hin]; [congruence|exact Hin].
Qed.

Lemma set_edge_same (u v : Z) (d : Ctree.EdgeAttr)
    (es : list (Z * Z * Ctree.EdgeAttr)) :
  Nx.get_edge u v es = Some d -> Nx.set_edge u v d es = es.
Proof.
  induction es as [|[[a b] d0] es IH]; simpl; [discriminate|].
  destruct (Nx.same_edge u v a b).
  - now intros [= ->].
  - intros Hes. now rewrite IH.
Qed.

Lemma edgesAdded_star_fixed (df : Pd.DataFrame) (r : Z) (cs ks : list Z)
    (ns : list (Z * NodeAttr)) :
  r ∉ ks -> (forall c, c ∈ ks -> c ∈ cs) ->
  (forall c, c = r \/ c ∈ ks -> is_Some (Pd.assoc c ns)) ->
  edgesAdded df ((fun c => (r, c, Closed.pairTau df r c)) <$> ks)
    (Nx.mkGraph ns (starEdge df r <$> cs))
  = Nx.mkGraph ns (starEdge df r <$> cs).
Proof.
  induction ks as [|c ks IH]; intros Hr Hsub Hnodes; [reflexivity|].
  apply not_elem_of_cons in Hr as [Hrc Hr].
  destruct (Hnodes r) as [ar Har]; [now left|].
  destruct (Hnodes c) as [ac Hac]; [right; left|].
  cbn [fmap list_fmap].
  change (edgesAdded df ((r, c, Closed.pairTau df r c) :: ?ps) ?g)
    with (edgesAdded df ps
            (Nx.add_edge r c
               (Ctree.mkEdge (Some (Closed.pairTau df r c))
                  (Some (mkPairCopula (Closed.column df r)
                           (Closed.column df c)))
                  None None) g)).
  assert (Hstep : Nx.add_edge r c
               (Ctree.mkEdge (Some (Closed.pairTau df r c))
                  (Some (mkPairCopula (Closed.column df r)
                           (Closed.column df c)))
                  None None) (Nx.mkGraph ns (starEdge df r <$> cs))
            = Nx.mkGraph ns (starEdge df r <$> cs)).
  { unfold Nx.add_edge.
    rewrite (ensure_node_present r _ ar) by exact Har.
    rewrite (ensure_node_present c _ ac) by exact Hac.
    cbn [Nx.node Nx.edge].
    rewrite get_edge_star_Some by (auto; apply Hsub; left).
    cbn. rewrite set_edge_same; [reflexivity|].
    apply get_edge_star_Some; [congruence|apply Hsub; left]. }
  rewrite Hstep. apply IH; [exact Hr| |].
  - intros c' Hc'. apply Hsub. now right.
  - intros c' [->|Hc']; apply Hnodes; [now left|right; now right].
Qed.

Lemma setEdges_automatic_closed_form (df : Pd.DataFrame)
    (lvl : option Z) (kwargs : gmap string (list Z)) (self : Ctree.t) :
  df ≠ [] -> NoDup (Pd.columns df) ->
  Ctree.init_body Ctree.new (Ctree.DataFrameArg df) lvl kwargs = Ok self ->
  exists r,
    r ∈ Pd.columns df /\
    Ctree._selectSpanningTree self = Ok (Closed.rowPairs df r) /\
    Ctree.setEdges self None
    = Ok (Ctree.set_tree
            (Nx.mkGraph (Nx.node (nodesBuilt df (Pd.columns df) Nx.new))
               (starEdge df r <$> Closed.others df r))
            self).
Proof.
  intros Hne Hnd Hinit.
  pose proof (init_body_inv df lvl kwargs self Hinit) as Hbuilt.
  destruct (selectSpanningTree_closed_form df self Hne Hbuilt)
    as (b & r & _ & Hr & Hsel & _ & _).
  assert (Hrin : r ∈ Pd.columns df) by (eapply list_elem_of_lookup_2; eauto).
  exists r. split; [exact Hrin|]. split; [exact Hsel|].
  rewrite init_body_exact in Hinit. injection Hinit as <-.
  unfold Ctree.setEdges. rewrite Hsel. cbn [mbind result_bind].
  rewrite (setEdges_loop df (Closed.rowPairs df r) _
             (nodesBuilt df (Pd.columns df) Nx.new));
    [|reflexivity|reflexivity|].
  - unfold Closed.rowPairs.
    rewrite (edgesAdded_star df r (Closed.others df r) []);
      [reflexivity| | | |].
    + simpl. now apply NoDup_filter.
    + unfold Closed.others. rewrite list_elem_of_filter. tauto.
    + intros c Hc. rewrite nodesBuilt_assoc, decide_True; [eauto|].
      destruct Hc as [->|Hc]; [exact Hrin|].
      unfold Closed.others in Hc. now apply list_elem_of_filter in Hc.
    + apply nodesBuilt_edge.
  - intros p Hp. unfold Closed.rowPairs in Hp.
    apply list_elem_of_fmap in Hp as (c & -> & Hc). cbn [fst snd].
    split; [exact Hrin|].
    unfold Closed.others in Hc. now apply list_elem_of_filter in Hc.
Qed.

(** X14. Automatic edge selection can be run again: on the instance built
    from a data frame with distinct column labels and at least one column,
    a second [setEdges()] selects the same root and leaves the tree as the
    first one left it; no edge is stored twice. *)
Theorem setEdges_automatic_idempotent (df : Pd.DataFrame)
    (lvl : option Z) (kwargs : gmap string (list Z)) (self : Ctree.t) :
  df ≠ [] -> NoDup (Pd.columns df) ->
  Ctree.init_body Ctree.new (Ctree.DataFrameArg df) lvl kwargs = Ok self ->
  exists self',
    Ctree.setEdges self None = Ok self' /\
    Ctree._selectSpanningTree self' = Ctree._selectSpanningTree self /\
    Ctree.setEdges self' None = Ok self'.
Proof.
  intros Hne Hnd Hinit.
  destruct (setEdges_automatic_closed_form df lvl kwargs self Hne Hnd Hinit)
    as (r & Hrin & Hsel & Hset).
  rewrite init_body_exact in Hinit. injection Hinit as <-.
  set (g0 := nodesBuilt df (Pd.columns df) Nx.new) in *.
  set (g1 := Nx.mkGraph (Nx.node g0) (starEdge df r <$> Closed.others df r))
    in *.
  set (self0 := Ctree.mk (Some df) (Some (length df)) (Some lvl) (Some g0))
    in *.
  assert (Hnodes : forall c, c ∈ Pd.columns df ->
            Ctree.node_values g1 c = Ok (Closed.column df c)).
  { intros c Hc. unfold Ctree.node_values, Nx.node_get, g1, g0.
    cbn [Nx.node]. now rewrite nodesBuilt_assoc, decide_True. }
  assert (Hsel' : Ctree._selectSpanningTree (Ctree.set_tree g1 self0)
                  = Ctree._selectSpanningTree self0).
  { rewrite (selectSpanningTree_of_nodes df _ g1);
      [|reflexivity|reflexivity|exact Hnodes].
    rewrite (selectSpanningTree_of_nodes df self0 g0);
      [reflexivity|reflexivity|reflexivity|].
    intros c Hc. unfold Ctree.node_values, Nx.node_get, g0.
    now rewrite nodesBuilt_assoc, decide_True. }
  exists (Ctree.set_tree g1 self0).
  split; [exact Hset|]. split; [exact Hsel'|].
  unfold Ctree.setEdges. rewrite Hsel', Hsel. cbn [mbind result_bind].
  rewrite (setEdges_loop df (Closed.rowPairs df r) _ g1);
    [|reflexivity|reflexivity|].
  - unfold Closed.rowPairs, g1.
    rewrite edgesAdded_star_fixed; [reflexivity| | |].
    + unfold Closed.others. rewrite list_elem_of_filter. tauto.
    + auto.
    + intros c Hc. unfold g0. rewrite nodesBuilt_assoc, decide_True; [eauto|].
      destruct Hc as [->|Hc]; [exact Hrin|].
      unfold Closed.others in Hc. now apply list_elem_of_filter in Hc.
  - intros p Hp. unfold Closed.rowPairs in Hp.
    apply list_elem_of_fmap in Hp as (c & -> & Hc). cbn [fst snd].
    split; [exact Hrin|].
    unfold Closed.others in Hc. now apply list_elem_of_filter in Hc.
Qed.

End Again.

Lemma setEdges_automatic_idempotent_witness :
  exists self',
    @Ctree.setEdges Kendall.pcBase Built.self3 None = Ok self' /\
    @Ctree._selectSpanningTree Kendall.pcBase self'
    = @Ctree._selectSpanningTree Kendall.pcBase Built.self3 /\
    @Ctree.setEdges Kendall.pcBase self' None = Ok self'.
Proof.
  apply (@setEdges_automatic_idempotent Kendall.pcBase Example.df3 None ∅
           Built.self3).
  - discriminate.
  - apply (bool_decide_unpack _). vm_compute. exact I.
  - reflexivity.
Defined.

(** ** The edges of a star, as [edges(data=True)] reports them *)

Section StarEdges.
Context (attr : Z -> Ctree.EdgeAttr) (r : Z).

Lemma report_child (n : Z) (seen cs : list Z) :
  n ≠ r -> r ∉ seen -> NoDup cs ->
  omap (Nx.report n seen) (Star.store attr r cs)
  = if decide (n ∈ cs) then [(n, r, attr n)] else [].
Proof.
  intros Hnr Hr Hnd. unfold Star.store.
  induction Hnd as [|c cs Hc Hnd IH].
  - now rewrite decide_False by apply not_elem_of_nil.
  - cbn [fmap list_fmap omap list_omap Nx.report].
    rewrite (decide_False (P := r = n)) by congruence.
    destruct (decide (c = n)) as [->|Hcn].
    + rewrite (decide_False (P := r ∈ seen)) by assumption.
      rewrite IH, (decide_False (P := n ∈ cs)) by assumption.
      rewrite decide_True by left. reflexivity.
    + rewrite IH. destruct (decide (n ∈ cs)) as [Hin|Hnin].
      * rewrite decide_True by now right. reflexivity.
      * rewrite decide_False; [reflexivity|].
        rewrite elem_of_cons. intros [->|?]; [congruence|contradiction].
Qed.

Lemma report_root (seen cs : list Z) :
  omap (Nx.report r seen) (Star.store attr r cs)
  = (fun c => (r, c, attr c)) <$> filter (fun c => c ∉ seen) cs.
Proof.
  unfold Star.store. induction cs as [|c cs IH]; [reflexivity|].
  cbn [fmap list_fmap omap list_omap Nx.report].
  rewrite (decide_True (P := r = r)) by reflexivity.
  destruct (decide (c ∈ seen)) as [Hin|Hnin].
  - rewrite filter_cons_False by (intros Hn; now apply Hn). exact IH.
  - rewrite filter_cons_True by assumption. cbn [fmap list_fmap].
    now rewrite IH.
Qed.

Lemma report_after_root (n : Z) (seen cs : list Z) :
  n ≠ r -> r ∈ seen -> omap (Nx.report n seen) (Star.store attr r cs) = [].
Proof.
  intros Hnr Hr. unfold Star.store.
  induction cs as [|c cs IH]; [reflexivity|].
  cbn [fmap list_fmap omap list_omap Nx.report].
  rewrite (decide_False (P := r = n)) by congruence.
  destruct (decide (c = n)) as [->|Hcn].
  - rewrite (decide_True (P := r ∈ seen)) by assumption. exact IH.
  - exact IH.
Qed.

Lemma edges_before_root (l rest seen cs : list Z) :
  r ∉ seen -> r ∉ l -> NoDup cs -> (forall n, n ∈ l -> n ∈ cs) ->
  Nx.edges_iter (l ++ rest) seen (Star.store attr r cs)
  = ((fun c => (c, r, attr c)) <$> l)
    ++ Nx.edges_iter rest (reverse l ++ seen) (Star.store attr r cs).
Proof.
  revert seen. induction l as [|n l IH]; intros seen Hseen Hl Hnd Hsub.
  - reflexivity.
  - apply not_elem_of_cons in Hl as [Hrn Hl].
    cbn [app Nx.edges_iter fmap list_fmap].
    rewrite report_child, decide_True by (auto using list_elem_of_here).
    rewrite IH; [|rewrite not_elem_of_cons; auto|assumption|assumption|].
    + rewrite reverse_cons, <- app_assoc. reflexivity.
    + intros n' Hn'. apply Hsub. now right.
Qed.

Lemma edges_after_root (l seen cs : list Z) :
  r ∈ seen -> r ∉ l ->
  Nx.edges_iter l seen (Star.store attr r cs) = [].
Proof.
  revert seen. induction l as [|n l IH]; intros seen Hseen Hl; [reflexivity|].
  apply not_elem_of_cons in Hl as [Hrn Hl].
  cbn [Nx.edges_iter].
  rewrite report_after_root by (auto; congruence).
  rewrite IH; [reflexivity|now right|assumption].
Qed.

Lemma filter_all {A} (P : A -> Prop) `{forall x, Decision (P x)}
    (l : list A) :
  (forall x, x ∈ l -> P x) -> filter P l = l.
Proof.
  induction l as [|x l IH]; intros Hl; [reflexivity|].
  rewrite filter_cons_True by (apply Hl; left).
  f_equal. apply IH. intros y Hy. apply Hl. now right.
Qed.

Lemma filter_none {A} (P : A -> Prop) `{forall x, Decision (P x)}
    (l : list A) :
  (forall x, x ∈ l -> ~ P x) -> filter P l = [].
Proof.
  induction l as [|x l IH]; intros Hl; [reflexivity|].
  rewrite filter_cons_False by (apply Hl; left).
  apply IH. intros y Hy. apply Hl. now right.
Qed.

(** The edges of a star whose nodes are [pre], the root, then [post]. *)
Lemma edges_of_star (ns : list (Z * NodeAttr)) (pre post : list Z) :
  fst <$> ns = pre ++ r :: post -> NoDup (pre ++ r :: post) ->
  Nx.edges (Nx.mkGraph ns (Star.store attr r (pre ++ post)))
  = Star.visits attr r pre post.
Proof.
  intros Hns Hnd. unfold Nx.edges, Star.visits. cbn [Nx.node Nx.edge].
  rewrite Hns.
  apply NoDup_app in Hnd as (Hpre & Hdisj & Hrpost).
  apply NoDup_cons in Hrpost as [Hrpost Hpost].
  assert (Hrpre : r ∉ pre) by (intros Hin; apply (Hdisj r Hin); left).
  assert (Hcs : NoDup (pre ++ post)).
  { apply NoDup_app. repeat split; [assumption| |assumption].
    intros x Hx Hx'. apply (Hdisj x Hx). now right. }
  rewrite edges_before_root;
    [|apply not_elem_of_nil|assumption|assumption
     |intros n Hn; apply elem_of_app; now left].
  f_equal. cbn [Nx.edges_iter].
  rewrite report_root, edges_after_root, app_nil_r;
    [|left|assumption].
  f_equal. rewrite filter_app, filter_none, filter_all; [reflexivity| |].
  - intros x Hx. rewrite app_nil_r, elem_of_reverse.
    intros Hx'. apply (Hdisj x Hx'). now right.
  - intros x Hx Hn. apply Hn. rewrite app_nil_r, elem_of_reverse. exact Hx.
Qed.

End StarEdges.

(** ** Updating the edges of a star *)

Section StarUpdate.
Context (r : Z).






End StarUpdate.

(** ** A loop over the edges of a star *)


Section StarLoop.
Context (r : Z) (cs : list Z) (ns : list (Z * NodeAttr)) (self0 : Ctree.t).

Local Abbreviation withStar := (Star.withStar self0 ns r cs).


End StarLoop.

(** ** [fitCopula] and [evalH] on the selected star *)

Lemma edges_iter_no_edges (ns seen : list Z) :
  Nx.edges_iter ns seen ([] : list (Z * Z * Ctree.EdgeAttr)) = [].
Proof.
  revert seen. induction ns as [|n ns IH]; intros seen; [reflexivity|].
  cbn. apply IH.
Qed.

Lemma others_split `{PcBase} (df : Pd.DataFrame) (pre post : list Z) (r : Z) :
  Pd.columns df = pre ++ r :: post -> NoDup (Pd.columns df) ->
  Closed.others df r = pre ++ post.
Proof.
  intros Hcols Hnd. unfold Closed.others. rewrite Hcols in *.
  apply NoDup_app in Hnd as (_ & Hdisj & Hrpost).
  apply NoDup_cons in Hrpost as [Hrpost _].
  rewrite filter_app, filter_cons_False by (intros Hn; now apply Hn).
  rewrite !filter_all; [reflexivity| |].
  - intros x Hx ->. contradiction.
  - intros x Hx ->. apply (Hdisj r Hx). left.
Qed.


Section Pipeline.
Context `{PcBase} (df : Pd.DataFrame) (self0 : Ctree.t) (r : Z)
        (pre post : list Z).
Context (Hcols : Pd.columns df = pre ++ r :: post)
        (Hnd : NoDup (Pd.columns df)).

Local Abbreviation withStar :=
  (Star.withStar self0 (Star.nodes df) r (pre ++ post)).



Lemma edges_withStar (attr : Z -> Ctree.EdgeAttr) :
  Nx.edges (Nx.mkGraph (Star.nodes df) (Star.store attr r (pre ++ post)))
  = Star.visits attr r pre post.
Proof.
  apply edges_of_star.
  - unfold Star.nodes. rewrite <- list_fmap_compose, <- Hcols.
    apply list_fmap_id.
  - now rewrite <- Hcols.
Qed.




End Pipeline.

Lemma selected_star_setup `{PcBase} (df : Pd.DataFrame) (lvl : option Z)
    (kwargs : gmap string (list Z)) (self : Ctree.t) :
  df ≠ [] -> NoDup (Pd.columns df) ->
  Ctree.init_body Ctree.new (Ctree.DataFrameArg df) lvl kwargs = Ok self ->
  exists r pre post,
    Pd.columns df = pre ++ r :: post /\
    Ctree._selectSpanningTree self = Ok (Closed.rowPairs df r) /\
    Ctree.setEdges self None
    = Ok (Star.withStar self (Star.nodes df) r (pre ++ post)
            (Star.selected df r)).
Proof.
  intros Hne Hnd Hinit.
  destruct (setEdges_automatic_closed_form df lvl kwargs self Hne Hnd Hinit)
    as (r & Hrin & Hsel & Hset).
  destruct (list_elem_of_split _ _ Hrin) as (pre & post & Hcols).
  exists r, pre, post. split; [exact Hcols|]. split; [exact Hsel|].
  rewrite Hset. unfold Star.withStar, Star.store.
  rewrite nodesBuilt_columns by assumption.
  now rewrite (others_split df pre post r).
Qed.





(** X17. The steps in another order.  Before [setEdges] the tree has no
    edge, and [fitCopula] and [evalH] return the instance as it is.  After
    [setEdges] on two or more columns, [evalH] without [fitCopula] raises
    [KeyError]: no edge has a ["pc-model"] yet. *)
Theorem evalH_needs_fitCopula `{PcBase} (df : Pd.DataFrame)
    (lvl : option Z) (kwargs : gmap string (list Z)) (self : Ctree.t) :
  (2 <= length df)%nat -> NoDup (Pd.columns df) ->
  Ctree.init_body Ctree.new (Ctree.DataFrameArg df) lvl kwargs = Ok self ->
  Ctree.fitCopula self = Ok self /\
  Ctree.evalH self = Ok self /\
  exists self1,
    Ctree.setEdges self None = Ok self1 /\
    Ctree.evalH self1 = Raise KeyError.
Proof.
  intros Hlen Hnd Hinit.
  assert (Hne : df ≠ []) by (destruct df; simpl in Hlen; [lia|discriminate]).
  destruct (selected_star_setup df lvl kwargs self Hne Hnd Hinit)
    as (r & pre & post & Hcols & _ & Hset).
  rewrite init_body_exact in Hinit. injection Hinit as <-.
  split; [|split].
  - unfold Ctree.fitCopula, Nx.edges.
    cbn [Ctree.get_tree Ctree.tree orRaise mbind result_bind].
    now rewrite nodesBuilt_edge, edges_iter_no_edges.
  - unfold Ctree.evalH, Nx.edges.
    cbn [Ctree.get_tree Ctree.tree orRaise mbind result_bind].
    now rewrite nodesBuilt_edge, edges_iter_no_edges.
  - eexists. split; [exact Hset|].
    unfold Ctree.evalH. cbn [Star.withStar Ctree.get_tree Ctree.set_tree
      Ctree.tree orRaise mbind result_bind].
    rewrite (edges_withStar df r pre post Hcols Hnd). unfold Star.visits.
    assert (Hlen' : length (Pd.columns df) = length df)
      by (unfold Pd.columns; now rewrite length_fmap).
    rewrite Hcols, length_app in Hlen'. simpl in Hlen'.
    destruct pre as [|c pre]; [destruct post as [|c post]|].
    + simpl in Hlen'. lia.
    + reflexivity.
    + reflexivity.
Qed.

Lemma evalH_needs_fitCopula_witness :
  @Ctree.fitCopula Kendall.pcBase Built.self3 = Ok Built.self3 /\
  Ctree.evalH Built.self3 = Ok Built.self3 /\
  exists self1,
    @Ctree.setEdges Kendall.pcBase Built.self3 None = Ok self1 /\
    Ctree.evalH self1 = Raise KeyError.
Proof.
  apply (@evalH_needs_fitCopula Kendall.pcBase Example.df3 None ∅
           Built.self3).
  - simpl. lia.
  - apply (bool_decide_unpack _). vm_compute. exact I.
  - reflexivity.
Defined.

(** ** Array input to [__init__] *)

Lemma enumerate_from_zip {A} (i : nat) (cols : list A) :
  zip (Z.of_nat <$> seq i (length cols)) cols
  = (fun p => (Z.of_nat p.1, p.2)) <$> enumerate_from i cols.
Proof.
  revert i. induction cols as [|c cols IH]; intros i; [reflexivity|].
  cbn. f_equal. apply IH.
Qed.

Lemma snd_of_array (cols : list Pd.Series) :
  snd <$> Pd.of_array cols = cols.
Proof.
  unfold Pd.of_array, enumerate. generalize 0%nat.
  induction cols as [|c cols IH]; intros i; [reflexivity|].
  cbn. f_equal. apply IH.
Qed.

Lemma length_of_array (cols : list Pd.Series) :
  length (Pd.of_array cols) = length cols.
Proof. rewrite <- (snd_of_array cols) at 2. now rewrite length_fmap. Qed.

(** X18. Past the assertion, [__init__] treats a two-dimensional array as
    the data frame of its columns: labelled 0, 1, ... without a [labels]
    keyword, labelled with the given labels when there is one label per
    column, and [ValueError] when the number of labels differs from the
    number of columns. *)
Theorem init_body_array_labels (cols : list Pd.Series) (lvl : option Z)
    (kwargs : gmap string (list Z)) :
  (kwargs !! "labels" = None ->
   Ctree.init_body Ctree.new (Ctree.ArrayArg cols) lvl kwargs
   = Ctree.init_body Ctree.new (Ctree.DataFrameArg (Pd.of_array cols))
       lvl kwargs) /\
  (forall labels, kwargs !! "labels" = Some labels ->
     length labels = length cols ->
     Ctree.init_body Ctree.new (Ctree.ArrayArg cols) lvl kwargs
     = Ctree.init_body Ctree.new (Ctree.DataFrameArg (zip labels cols))
         lvl kwargs) /\
  (forall labels, kwargs !! "labels" = Some labels ->
     length labels ≠ length cols ->
     Ctree.init_body Ctree.new (Ctree.ArrayArg cols) lvl kwargs
     = Raise ValueError).
Proof.
  unfold Ctree.init_body.
  cbn [Ctree.get_data Ctree.set_data Ctree.data Ctree.arg_ncols orRaise
       mbind result_bind].
  unfold Pd.set_columns. rewrite length_of_array, snd_of_array.
  split; [|split].
  - intros ->. cbn [default].
    rewrite decide_True by (now rewrite length_fmap, length_seq).
    cbn [mbind result_bind]. now rewrite enumerate_from_zip.
  - intros labels -> Hlen. cbn [default]. rewrite decide_True by assumption.
    cbn [mbind result_bind].
    now rewrite length_zip, Hlen, Nat.min_id.
  - intros labels -> Hlen. cbn [default].
    now rewrite decide_False by assumption.
Qed.

(** ** Two columns *)



(** ** A pair given twice *)

(** X20. An edge is undirected and stored once: when a user-supplied
    structure names the same two columns twice, the second time in the other
    order, [setEdges] leaves a single edge between them, which carries the
    weight and the pair copula of the second pair. *)
Theorem setEdges_repeated_pair `{PcBase} (df : Pd.DataFrame)
    (lvl : option Z) (kwargs : gmap string (list Z)) (self : Ctree.t)
    (a b : Z) :
  Ctree.init_body Ctree.new (Ctree.DataFrameArg df) lvl kwargs = Ok self ->
  a ∈ Pd.columns df -> b ∈ Pd.columns df ->
  exists self' g,
    Ctree.setEdges self (Some [(a, b); (b, a)]) = Ok self' /\
    Ctree.tree self' = Some g /\
    Nx.edge g
    = [(a, b,
        Ctree.mkEdge (Some (Closed.pairTau df b a))
          (Some (mkPairCopula (Closed.column df b) (Closed.column df a)))
          None None)] /\
    Nx.number_of_edges g = 1%nat.
Proof.
  intros Hinit Ha Hb.
  destruct (init_body_inv df lvl kwargs self Hinit)
    as (Hd & g0 & Hg0 & Hedge & Hnodes).
  assert (Hsts : Ctree._setTreeStructure self [(a, b); (b, a)]
                 = Ok [(a, b, Closed.pairTau df a b);
                       (b, a, Closed.pairTau df b a)]).
  { unfold Ctree._setTreeStructure.
    rewrite (setTreeStructure_loop df self g0 [(a, b); (b, a)] []);
      [reflexivity|assumption|assumption|].
    intros q Hq. apply elem_of_cons in Hq as [->|Hq];
      [|apply list_elem_of_singleton in Hq as ->]; auto. }
  assert (Hna : is_Some (Pd.assoc a (Nx.node g0))).
  { specialize (Hnodes a Ha). unfold Ctree.node_values, Nx.node_get in Hnodes.
    destruct (Pd.assoc a (Nx.node g0)); [eauto|discriminate]. }
  assert (Hnb : is_Some (Pd.assoc b (Nx.node g0))).
  { specialize (Hnodes b Hb). unfold Ctree.node_values, Nx.node_get in Hnodes.
    destruct (Pd.assoc b (Nx.node g0)); [eauto|discriminate]. }
  destruct Hna as [na Hna], Hnb as [nb Hnb].
  do 2 eexists. split.
  { unfold Ctree.setEdges. rewrite Hsts. cbn [mbind result_bind].
    apply (setEdges_loop df _ self g0); [assumption|assumption|].
    intros q Hq. apply elem_of_cons in Hq as [->|Hq];
      [|apply list_elem_of_singleton in Hq as ->]; auto. }
  split; [reflexivity|].
  assert (Hg : Nx.edge
                 (edgesAdded df [(a, b, Closed.pairTau df a b);
                                 (b, a, Closed.pairTau df b a)] g0)
               = [(a, b,
                   Ctree.mkEdge (Some (Closed.pairTau df b a))
                     (Some (mkPairCopula (Closed.column df b)
                              (Closed.column df a)))
                     None None)]).
  { unfold edgesAdded. cbn [foldl fst snd]. unfold Nx.add_edge.
    rewrite (ensure_node_present a g0 na Hna).
    rewrite (ensure_node_present b g0 nb Hnb).
    rewrite Hedge. cbn [Nx.get_edge Nx.set_edge default Nx.node Nx.edge].
    rewrite (ensure_node_present b _ nb) by exact Hnb.
    rewrite (ensure_node_present a _ na) by exact Hna.
    cbn [Nx.get_edge Nx.set_edge default Nx.node Nx.edge].
    unfold Nx.same_edge.
    rewrite !bool_decide_eq_true_2 by (right; split; reflexivity).
    reflexivity. }
  cbn [Ctree.set_tree Ctree.tree]. split; [exact Hg|].
  unfold Nx.number_of_edges.
  cbn [Ctree.set_tree Ctree.tree] in Hg. now rewrite Hg.
Qed.

Lemma setEdges_repeated_pair_witness :
  exists self' g,
    @Ctree.setEdges Kendall.pcBase Built.self3 (Some [(0, 2); (2, 0)]%Z)
    = Ok self' /\
    Ctree.tree self' = Some g /\
    Nx.edge g
    = [(0%Z, 2%Z,
        Ctree.mkEdge (Some (@Closed.pairTau Kendall.pcBase Example.df3 2 0))
          (Some (mkPairCopula (Closed.column Example.df3 2)
                   (Closed.column Example.df3 0)))
          None None)] /\
    Nx.number_of_edges g = 1%nat.
Proof.
  apply (@setEdges_repeated_pair Kendall.pcBase Example.df3 None ∅
           Built.self3 0%Z 2%Z).
  - reflexivity.
  - apply (bool_decide_unpack _). vm_compute. exact I.
  - apply (bool_decide_unpack _). vm_compute. exact I.
Defined.
